(** * cnncalc: output size, receptive field and jump of a chain of layers

    A shallow embedding of [cnncalc/main.py]: the layer classes ([Layer],
    [Input], [Conv], [Pool]), the construction of layers from configuration
    records ([create_layer_from_config], [build_layers_from_config]) and
    the loop of [main] that calls [calculate] on every layer after the
    first.

    Python values are dynamically typed.  The embedding keeps the values a
    configuration supplies for the numeric keys as they are ([None], an
    [int], a [str]) and gives the operators the program applies to them
    their Python meaning, exceptions included.  Exceptions are results:
    a function that can raise returns an [outcome]; a method that mutates
    [self] returns the new state of [self] next to it, so that what was
    assigned before an exception stays assigned.  The argument parser, the
    YAML/JSON loader and the table printer are not part of the embedding. *)

From Stdlib Require Import ZArith Lia String Ascii.
From Corelib Require Import SpecFloat.
From stdpp Require Import gmap strings list pretty.

Local Open Scope Z_scope.
Local Open Scope string_scope.

(** ** Values, exceptions, outcomes *)

(** The exceptions the embedded code can raise. *)
Inductive exn :=
  | TypeError
  | ZeroDivisionError
  | OverflowError
  | KeyError
  | AttributeError
  | UnboundLocalError
  | IndexError
  | ValueError.

Inductive outcome (A : Type) :=
  | Ok (a : A)
  | Raise (e : exn).
Arguments Ok {A} a.
Arguments Raise {A} e.

#[global] Instance outcome_ret : MRet outcome := fun _ a => Ok a.
#[global] Instance outcome_bind : MBind outcome := fun _ _ f m =>
  match m with
  | Ok a => f a
  | Raise e => Raise e
  end.

(** A Python object as a configuration or a layer attribute holds it:
    [None], an [int] (unbounded), or a [str]. *)
Inductive value :=
  | VNone
  | VInt (z : Z)
  | VStr (s : string).

#[global] Instance value_eq_dec : EqDecision value.
Proof. solve_decision. Defined.

#[global] Instance exn_eq_dec : EqDecision exn.
Proof. solve_decision. Defined.

(** ** Floats

    [receptive_field_center] is a Python [float], an IEEE 754 binary64
    number.  It is embedded as a [spec_float] at precision 53 and maximal
    exponent 1024, with the standard library's specification of the
    rounded operations. *)

Definition float := spec_float.
Definition prec : Z := 53.
Definition emax : Z := 1024.

(** The literal [0.5]. *)
Definition float_half : float := S754_finite false 4503599627370496 (-53).

(** [float(z)] for an [int]: rounded to nearest, ties to even;
    [OverflowError] when the result would not be finite. *)
Definition float_of_int (z : Z) : outcome float :=
  match binary_normalize prec emax z 0 false with
  | S754_infinity _ => Raise OverflowError
  | f => Ok f
  end.

Definition float_add (x y : float) : float := SFadd prec emax x y.

(** ** Operators

    The binary operators of the arithmetic in [Conv], on the values above.
    [//] and [%] on [int] round towards minus infinity, as [Z.div] and
    [Z.modulo] do, and raise on a zero divisor. *)

Fixpoint str_repeat (s : string) (n : nat) : string :=
  match n with
  | O => ""
  | S n' => s ++ str_repeat s n'
  end.

Definition py_add (a b : value) : outcome value :=
  match a, b with
  | VInt x, VInt y => Ok (VInt (x + y))
  | VStr x, VStr y => Ok (VStr (x ++ y))
  | _, _ => Raise TypeError
  end.

Definition py_sub (a b : value) : outcome value :=
  match a, b with
  | VInt x, VInt y => Ok (VInt (x - y))
  | _, _ => Raise TypeError
  end.

Definition py_mul (a b : value) : outcome value :=
  match a, b with
  | VInt x, VInt y => Ok (VInt (x * y))
  | VInt n, VStr s | VStr s, VInt n => Ok (VStr (str_repeat s (Z.to_nat n)))
  | _, _ => Raise TypeError
  end.

Definition py_floordiv (a b : value) : outcome value :=
  match a, b with
  | VInt x, VInt y =>
      if decide (y = 0) then Raise ZeroDivisionError else Ok (VInt (x / y))
  | _, _ => Raise TypeError
  end.

(** [a % b].  With a [str] on the left [%] is printf-style formatting; the
    only place the program applies it is [self.kernel % 2], whose result
    is then added to a term that subtracts [self.kernel], and a [str]
    cannot be subtracted.  The formatting is therefore embedded as the
    [TypeError] that the expression ends in; a format string that the
    formatting itself rejects with another exception is outside the
    embedding. *)
Definition py_mod (a b : value) : outcome value :=
  match a, b with
  | VInt x, VInt y =>
      if decide (y = 0) then Raise ZeroDivisionError else Ok (VInt (x mod y))
  | _, _ => Raise TypeError
  end.

(** [x + v] for [x] a [float] or [None] and [v] the value of an [int]
    expression: the [int] is converted first. *)
Definition py_float_add (x : option float) (v : value) : outcome float :=
  match x, v with
  | Some f, VInt z => y ← float_of_int z; Ok (float_add f y)
  | _, _ => Raise TypeError
  end.

(** ** Layers *)

(** The attributes [Conv.__init__] assigns. [_padding] is the name of the
    padding policy, or [None]. *)
Record ConvParams := mkConvParams {
  kernel : value;
  padding : value;
  stride : value;
  _padding : value
}.

(** The class of a layer object, with the attributes only that class has. *)
Inductive LayerClass :=
  | Input
  | Conv (p : ConvParams)
  | Pool (p : ConvParams).

(** A layer object.  [receptive_field_center] is [None] or a [float]:
    [Input] assigns [0.5] to it, and [Conv] the sum of a predecessor's and
    of an [int]. *)
Record Layer := mkLayer {
  cls : LayerClass;
  name : value;
  output_size : value;
  receptive_field_size : value;
  receptive_field_center : option float;
  jump : value
}.

Definition set_output_size (v : value) (self : Layer) : Layer :=
  mkLayer (cls self) (name self) v (receptive_field_size self)
          (receptive_field_center self) (jump self).
Definition set_receptive_field_size (v : value) (self : Layer) : Layer :=
  mkLayer (cls self) (name self) (output_size self) v
          (receptive_field_center self) (jump self).
Definition set_receptive_field_center (f : option float) (self : Layer) : Layer :=
  mkLayer (cls self) (name self) (output_size self) (receptive_field_size self)
          f (jump self).
Definition set_jump (v : value) (self : Layer) : Layer :=
  mkLayer (cls self) (name self) (output_size self) (receptive_field_size self)
          (receptive_field_center self) v.

(** The [Conv] attributes of a layer, [None] for an [Input]. *)
Definition conv_params (self : Layer) : option ConvParams :=
  match cls self with
  | Input => None
  | Conv p | Pool p => Some p
  end.

(** The four attributes a layer derives from its predecessor. *)
Definition derived (self : Layer) : value * value * option float * value :=
  (output_size self, receptive_field_size self, receptive_field_center self,
   jump self).

(** [Layer.__init__]; the class is the one of the object under
    construction. *)
Definition Layer_init (c : LayerClass) (name : value) : Layer :=
  {| cls := c;
     name := name;
     output_size := VNone;
     receptive_field_size := VNone;
     receptive_field_center := None;
     jump := VInt 1 |}.

(** [Input.__init__] *)
Definition Input_init (size : value) (name : value) : Layer :=
  let self := Layer_init Input name in
  let self := set_output_size size self in
  let self := set_receptive_field_size (VInt 1) self in
  let self := set_receptive_field_center (Some float_half) self in
  set_jump (VInt 1) self.

(** [Conv.__init__]; [mk] is [Conv] or [Pool], the class being
    instantiated.  The defaults of [stride], [padding] and [name] are
    supplied by the callers. *)
Definition Conv_init (mk : ConvParams → LayerClass)
    (kernel stride padding name : value) : outcome Layer :=
  '(padding, _padding) ←
    (if decide (padding = VStr "same") then
       p ← py_floordiv kernel (VInt 2); Ok (p, padding)
     else if decide (padding = VStr "valid") then
       Ok (VInt 0, padding)
     else
       Ok (padding, VNone));
  Ok (Layer_init (mk (mkConvParams kernel padding stride _padding)) name).

(** [Pool.__init__] *)
Definition Pool_init (size name : value) : outcome Layer :=
  Conv_init Pool size size (VStr "same") name.

(** *** The methods of [Conv] *)

Definition calculate_output_size (self : ConvParams) (input_size : value)
    : outcome value :=
  parity ← py_mod (kernel self) (VInt 2);
  twice ← py_mul (VInt 2) (padding self);
  padded ← py_add input_size twice;
  span ← py_sub padded (kernel self);
  steps ← py_floordiv span (stride self);
  py_add parity steps.

Definition calculate_output_jump (self : ConvParams) (input_jump : value)
    : outcome value :=
  py_mul input_jump (stride self).

Definition calculate_receptive_field_size (self : ConvParams)
    (input_receptive_field input_jump : value) : outcome value :=
  reach ← py_sub (kernel self) (VInt 1);
  grown ← py_mul reach input_jump;
  py_add input_receptive_field grown.

Definition calculate_receptive_field_center (self : ConvParams)
    (input_receptive_center : option float) (input_jump : value)
    : outcome float :=
  reach ← py_sub (kernel self) (VInt 1);
  half_reach ← py_floordiv reach (VInt 2);
  shift ← py_sub half_reach (padding self);
  moved ← py_mul shift input_jump;
  py_float_add input_receptive_center moved.

(** [Conv.calculate]: four assignments to [self], in this order.  An
    exception leaves [self] with the assignments already made.  An [Input]
    has no such method. *)
Definition calculate (self input_layer : Layer) : Layer * outcome unit :=
  match conv_params self with
  | None => (self, Raise AttributeError)
  | Some p =>
    match calculate_output_size p (output_size input_layer) with
    | Raise e => (self, Raise e)
    | Ok size =>
      let self := set_output_size size self in
      match calculate_receptive_field_size p
              (receptive_field_size input_layer) (jump input_layer) with
      | Raise e => (self, Raise e)
      | Ok field =>
        let self := set_receptive_field_size field self in
        match calculate_receptive_field_center p
                (receptive_field_center input_layer) (jump input_layer) with
        | Raise e => (self, Raise e)
        | Ok center =>
          let self := set_receptive_field_center (Some center) self in
          match calculate_output_jump p (jump input_layer) with
          | Raise e => (self, Raise e)
          | Ok j => (set_jump j self, Ok tt)
          end
        end
      end
    end
  end.

(** ** Configuration records *)

(** [str.lower] on the characters a layer type is compared over. *)
Definition lower_char (c : ascii) : ascii :=
  let n := N_of_ascii c in
  if decide (65 ≤ n ≤ 90)%N then ascii_of_N (n + 32) else c.

Fixpoint lower (s : string) : string :=
  match s with
  | EmptyString => EmptyString
  | String c s' => String (lower_char c) (lower s')
  end.

(** [v.lower()]: only a [str] has the method. *)
Definition py_lower (v : value) : outcome string :=
  match v with
  | VStr s => Ok (lower s)
  | _ => Raise AttributeError
  end.

(** A layer-configuration record: a [dict] with [str] keys. *)
Abbreviation record := (gmap string value).

(** [config.get(key, default)] *)
Definition get (config : record) (key : string) (default : value) : value :=
  match config !! key with
  | Some v => v
  | None => default
  end.

(** The three blocks of [create_layer_from_config] that write the full key
    of an abbreviated one into [config]. *)
Definition use_kernel_size_shortcuts (config : record) : record :=
  match config !! "kernel_size" with
  | Some _ => config
  | None =>
    match config !! "kernel" with
    | Some v => <["kernel_size" := v]> config
    | None =>
      match config !! "k" with
      | Some v => <["kernel_size" := v]> config
      | None => config
      end
    end
  end.

Definition use_stride_shortcuts (config : record) : record :=
  match config !! "stride", config !! "s" with
  | None, Some v => <["stride" := v]> config
  | _, _ => config
  end.

Definition use_padding_shortcuts (config : record) : record :=
  match config !! "padding", config !! "p" with
  | None, Some v => <["padding" := v]> config
  | _, _ => config
  end.

Definition use_shortcuts (config : record) : record :=
  use_padding_shortcuts (use_stride_shortcuts (use_kernel_size_shortcuts config)).

(** [create_layer_from_config].  [config] is the caller's [dict], assigned
    to in place: the first component of the result is that [dict] when the
    function returns or raises.  With a type that is neither ['conv'] nor
    ['pool'] no branch binds [layer], and [return layer] raises. *)
Definition create_layer_from_config (config : record) : record * outcome Layer :=
  match py_lower (get config "type" (VStr "conv")) with
  | Raise e => (config, Raise e)
  | Ok layer_type =>
    let config := use_shortcuts config in
    if decide (layer_type = "conv") then
      match config !! "kernel_size" with
      | None => (config, Raise KeyError)
      | Some kernel_size =>
        (config, Conv_init Conv kernel_size
                   (get config "stride" (VInt 1))
                   (get config "padding" (VStr "same"))
                   (get config "name" VNone))
      end
    else if decide (layer_type = "pool") then
      match config !! "kernel_size" with
      | None => (config, Raise KeyError)
      | Some kernel_size =>
        (config, Pool_init kernel_size (get config "name" VNone))
      end
    else (config, Raise UnboundLocalError)
  end.

(** The loaded configuration: a [list] of records, or a [dict] whose
    ['layers'] maps to that list and whose ['input_size'] optionally gives
    the size of the input layer. *)
Inductive Config :=
  | ConfigList (layers : list record)
  | ConfigDict (input_size : option value) (layers : option (list record)).

(** The generator [create_layer_from_config(layer) for layer in config] as
    [list.extend] consumes it: record after record, until one raises. *)
Fixpoint create_layers (config : list record) : list record * outcome (list Layer) :=
  match config with
  | [] => ([], Ok [])
  | layer :: rest =>
    match create_layer_from_config layer with
    | (layer', Raise e) => (layer' :: rest, Raise e)
    | (layer', Ok l) =>
      let '(rest', r) := create_layers rest in
      (layer' :: rest', ls ← r; Ok (l :: ls))
    end
  end.

(** [build_layers_from_config], with the state of the configuration it
    leaves behind. *)
Definition build_layers_from_config (config : Config) (input_size : value)
    : Config * outcome (list Layer) :=
  match config with
  | ConfigList records =>
    let '(records', r) := create_layers records in
    (ConfigList records', ls ← r; Ok (Input_init input_size VNone :: ls))
  | ConfigDict size records =>
    let first := Input_init (default input_size size) VNone in
    match records with
    | None => (config, Ok [first])
    | Some records =>
      let '(records', r) := create_layers records in
      (ConfigDict size (Some records'), ls ← r; Ok (first :: ls))
    end
  end.

(** ** The loop of [main]

    [layers] is a list of references to layer objects.  The objects are
    kept in a store indexed by their position in [layers]; [previous_layer]
    and the loop variable [layer] are positions.  Each iteration replaces
    the object at [layer] by its state after [calculate]. *)

Abbreviation store := (list Layer).

Fixpoint calculate_each (layers : store) (previous_layer : nat) (rest : list nat)
    : store * outcome unit :=
  match rest with
  | [] => (layers, Ok tt)
  | layer :: rest' =>
    match layers !! layer, layers !! previous_layer with
    | Some self, Some input_layer =>
      let '(self', r) := calculate self input_layer in
      let layers := <[layer := self']> layers in
      match r with
      | Raise e => (layers, Raise e)
      | Ok _ => calculate_each layers layer rest'
      end
    | _, _ => (layers, Raise IndexError)
    end
  end.

(** [layers[1:]] as positions. *)
Definition tail_positions (layers : store) : list nat :=
  seq 1 (length layers - 1).

(** Lines 47 to 50 of [main]: [layers[0]] raises on an empty list. *)
Definition calculate_layers (layers : store) : store * outcome unit :=
  match layers with
  | [] => (layers, Raise IndexError)
  | _ :: _ => calculate_each layers 0 (tail_positions layers)
  end.

(** [main] from the loaded configuration to the layers it prints, without
    [--parse-only].  An empty list is false in [if config:] and nothing is
    computed; a [ConfigDict] stands for a [dict] that is not empty. *)
Definition main (config : Config) (input_size : value)
    : Config * outcome store :=
  match config with
  | ConfigList [] => (config, Ok [])
  | _ =>
    match build_layers_from_config config input_size with
    | (config', Raise e) => (config', Raise e)
    | (config', Ok layers) =>
      match calculate_layers layers with
      | (_, Raise e) => (config', Raise e)
      | (layers', Ok _) => (config', Ok layers')
      end
    end
  end.

(** ** Descriptions and the output table

    Strings are taken character by character; [len] is [String.length]. *)

(** The truth value of an object in a condition. *)
Definition truthy (v : value) : bool :=
  match v with
  | VNone => false
  | VInt z => negb (Z.eqb z 0)
  | VStr s => negb (String.eqb s "")
  end.

(** The number of decimal digits of an [int], the sign not counted. *)
Definition decimal_digits (z : Z) : nat := String.length (pretty (Z.abs z)).

(** The interpreter refuses to write an [int] of more decimal digits than
    [sys.get_int_max_str_digits()], here [int_max_str_digits]: [4300]
    unless it was set, [0] for no limit (an interpreter without the limit
    is one with [0]); the values it can be set to are [0] and those from
    [640] on. *)
Definition too_many_digits (int_max_str_digits : nat) (z : Z) : bool :=
  negb (int_max_str_digits =? 0)%nat
  && (int_max_str_digits <? decimal_digits z)%nat.

(** The text of an object, the limit apart. *)
Definition decimal (v : value) : string :=
  match v with
  | VNone => "None"
  | VInt z => pretty z
  | VStr s => s
  end.

(** [str(v)], which is also what an f-string puts for [{v}]: [ValueError]
    for an [int] over the limit. *)
Definition py_str (int_max_str_digits : nat) (v : value) : outcome string :=
  match v with
  | VInt z =>
    if too_many_digits int_max_str_digits z then Raise ValueError
    else Ok (decimal v)
  | _ => Ok (decimal v)
  end.

(** [self.__class__.__name__] *)
Definition class_name (c : LayerClass) : string :=
  match c with
  | Input => "Input"
  | Conv _ => "Conv"
  | Pool _ => "Pool"
  end.

(** The property [Layer.description]: the name is appended when it is
    true, and only a [str] can be appended to a [str]. *)
Definition Layer_description (self : Layer) : outcome string :=
  let description := class_name (cls self) in
  if truthy (name self) then
    match name self with
    | VStr s => Ok (description ++ s)
    | _ => Raise TypeError
    end
  else Ok description.

(** The property [Conv.description]: the description of [Layer], then the
    f-string, its fields from left to right. *)
Definition Conv_description (int_max_str_digits : nat) (self : Layer)
    (p : ConvParams) : outcome string :=
  base ← Layer_description self;
  k ← py_str int_max_str_digits (kernel p);
  s ← py_str int_max_str_digits (stride p);
  pd ← py_str int_max_str_digits (padding p);
  policy ← (if truthy (_padding p) then
              t ← py_str int_max_str_digits (_padding p); Ok ("(" ++ t ++ ")")
            else Ok "");
  Ok (base ++ " [" ++
      "kernel_size=" ++ k ++ ", " ++
      "stride=" ++ s ++ ", " ++
      "padding=" ++ pd ++ policy ++
      "]").

(** [self.description], by the class of [self]; [Layer.__str__] returns
    it. *)
Definition description (int_max_str_digits : nat) (self : Layer)
    : outcome string :=
  match conv_params self with
  | None => Layer_description self
  | Some p => Conv_description int_max_str_digits self p
  end.

Definition COLUMN_SEPERATOR : string := " | ".
Definition HORIZONTAL_RULE_CHARACTER : string := "-".
Definition newline : string := String (ascii_of_nat 10) "".

(** [sep.join(parts)] *)
Fixpoint join (sep : string) (parts : list string) : string :=
  match parts with
  | [] => ""
  | [part] => part
  | part :: parts' => part ++ sep ++ join sep parts'
  end.

(** A text in a field of [width] characters, as the format
    specifications [<width] (and [width] alone, for a [str]) and [^width]
    place it: a longer text is kept whole, and of an odd number of
    padding characters the centred text has one more on its right. *)
Definition ljust (text : string) (width : nat) : string :=
  text ++ str_repeat " " (width - String.length text)%nat.

Definition center (text : string) (width : nat) : string :=
  let pad := (width - String.length text)%nat in
  str_repeat " " (pad / 2)%nat ++ text ++ str_repeat " " (pad - pad / 2)%nat.

(** [f'{v:^{width}}'] for an attribute: [None] has no such format, and an
    [int] is written under the limit of [str]. *)
Definition format_center (int_max_str_digits : nat) (v : value) (width : nat)
    : outcome string :=
  match v with
  | VNone => Raise TypeError
  | _ => text ← py_str int_max_str_digits v; Ok (center text width)
  end.

(** The descriptions of the layers, for [max] of their lengths. *)
Fixpoint descriptions (int_max_str_digits : nat) (layers : store)
    : outcome (list string) :=
  match layers with
  | [] => Ok []
  | layer :: layers' =>
    d ← description int_max_str_digits layer;
    ds ← descriptions int_max_str_digits layers';
    Ok (d :: ds)
  end.

Definition max_length (texts : list string) : nat :=
  foldr Nat.max 0%nat (String.length <$> texts).

(** One row of the table: the three attributes of [COLUMN_ATTRIBUTES],
    aligned as [COLUMN_ALIGNS] says, in the widths of [COLUMN_WIDTHS]. *)
Definition table_row (int_max_str_digits : nat) (width0 : nat) (layer : Layer)
    : outcome string :=
  d ← description int_max_str_digits layer;
  size ← format_center int_max_str_digits (output_size layer) 12;
  field ← format_center int_max_str_digits (receptive_field_size layer) 16;
  Ok (join COLUMN_SEPERATOR [ljust d width0; size; field]).

Fixpoint table_rows (int_max_str_digits : nat) (width0 : nat) (layers : store)
    : outcome (list string) :=
  match layers with
  | [] => Ok []
  | layer :: layers' =>
    row ← table_row int_max_str_digits width0 layer;
    rows ← table_rows int_max_str_digits width0 layers';
    Ok (row :: rows)
  end.

Definition table_header (width0 : nat) : string :=
  join COLUMN_SEPERATOR
    [ljust "Layer" width0; ljust "Output Size" 12; ljust "Receptive Field" 16].

(** [build_output_table], with the lines of the table for its text, which
    is the lines joined by a newline.  [COLUMN_WIDTHS] is a global list
    that starts as [[None, 12, 16]]; only its first entry is ever
    assigned, once, by the first call that gets so far.  [width0] is that
    entry, passed in and returned.  [max] of no layer raises
    [ValueError]. *)
Definition build_output_table (int_max_str_digits : nat) (width0 : option nat)
    (layers : store) : option nat * outcome (list string) :=
  let filled :=
    match width0 with
    | Some w => Ok w
    | None =>
      match descriptions int_max_str_digits layers with
      | Raise e => Raise e
      | Ok [] => Raise ValueError
      | Ok ds => Ok (max_length ds)
      end
    end in
  match filled with
  | Raise e => (width0, Raise e)
  | Ok w =>
    let header := table_header w in
    match table_rows int_max_str_digits w layers with
    | Raise e => (Some w, Raise e)
    | Ok [] => (Some w, Raise ValueError)
    | Ok rows =>
      let horizontal_rule :=
        str_repeat HORIZONTAL_RULE_CHARACTER
          (Nat.max (String.length header) (max_length rows)) in
      (Some w, Ok ([header; horizontal_rule] ++ rows ++ [horizontal_rule])%list)
    end
  end.

Definition table_text (lines : list string) : string := join newline lines.

(** ** Notions of the specification *)

(** The stride of a layer that is not an [Input], when it is an [int]. *)
Definition stride_int (self : Layer) : option Z :=
  match conv_params self with
  | Some p => match stride p with VInt s => Some s | _ => None end
  | None => None
  end.

(** The product of the strides of the layers at positions [0] to [i] that
    are not an [Input]. *)
Definition stride_product (layers : store) (i : nat) : Z :=
  foldr Z.mul 1 (omap stride_int (take (S i) layers)).

(** The value of the first of [keys] that [config] has. *)
Fixpoint first_present (keys : list string) (config : record) : option value :=
  match keys with
  | [] => None
  | key :: keys' =>
    match config !! key with
    | Some v => Some v
    | None => first_present keys' config
    end
  end.

(** The position the loop has in [previous_layer] after [rest]. *)
Fixpoint final (previous_layer : nat) (rest : list nat) : nat :=
  match rest with
  | [] => previous_layer
  | layer :: rest' => final layer rest'
  end.

(** A layer with kernel 1, stride 1 and padding 0. *)
Definition identity_conv (self : Layer) : Prop :=
  ∃ p, conv_params self = Some p ∧
       kernel p = VInt 1 ∧ stride p = VInt 1 ∧ padding p = VInt 0.

(** The derived attributes of an [Input] of size [N]. *)
Definition baseline (N : Z) (self : Layer) : Prop :=
  derived self = (VInt N, VInt 1, Some float_half, VInt 1).

(** A layer whose four derived attributes hold numbers. *)
Definition populated (self : Layer) : Prop :=
  ∃ o r c j, derived self = (VInt o, VInt r, Some c, VInt j).

(** The kernel of a layer that is not an [Input], when it is an [int]. *)
Definition kernel_int (self : Layer) : option Z :=
  match conv_params self with
  | Some p => match kernel p with VInt k => Some k | _ => None end
  | None => None
  end.

(** The kernel of the layer at position [j], [1] where there is none. *)
Definition kernel_at (layers : store) (j : nat) : Z :=
  default 1 (layers !! j ≫= kernel_int).

(** The receptive field of the layer at position [i] in closed form: one
    input unit, and for each layer up to it its kernel less one, times
    the product of the strides before it. *)
Definition receptive_field_formula (layers : store) (i : nat) : Z :=
  1 + foldr Z.add 0
        ((λ j, (kernel_at layers j - 1) * stride_product layers (j - 1)) <$> seq 1 i).

(** Kernels and strides of at least one, as the layers of a network have
    them. *)
Definition positive_params (self : Layer) : Prop :=
  ∀ p K S, conv_params self = Some p →
    kernel p = VInt K → stride p = VInt S → (1 ≤ K)%Z ∧ (1 ≤ S)%Z.

(** The layer records of a configuration, and the size its [Input] gets
    when [input_size] is the one of the command line. *)
Definition config_records (config : Config) : list record :=
  match config with
  | ConfigList records => records
  | ConfigDict _ records => default [] records
  end.

Definition config_input_size (config : Config) (input_size : value) : value :=
  match config with
  | ConfigList _ => input_size
  | ConfigDict size _ => default input_size size
  end.

(** A layer as a constructor of [Conv] or [Pool] leaves it. *)
Definition fresh (self : Layer) : Prop :=
  conv_params self ≠ None ∧ derived self = (VNone, VNone, None, VInt 1).

(** An object that [str] refuses under the limit. *)
Definition too_long (int_max_str_digits : nat) (v : value) : Prop :=
  ∃ z, v = VInt z ∧ too_many_digits int_max_str_digits z = true.

(** Some attribute that [Conv.description] writes is refused. *)
Definition exceeds (int_max_str_digits : nat) (p : ConvParams) : Prop :=
  too_long int_max_str_digits (kernel p) ∨
  too_long int_max_str_digits (stride p) ∨
  too_long int_max_str_digits (padding p) ∨
  too_long int_max_str_digits (_padding p).

(** The name as a description shows it. *)
Definition name_text (v : value) : string :=
  match v with
  | VStr s => s
  | _ => ""
  end.

(** The bracketed part of the description of a [Conv] or a [Pool]. *)
Definition params_text (self : Layer) : string :=
  match conv_params self with
  | None => ""
  | Some p =>
    " [kernel_size=" ++ decimal (kernel p) ++
    ", stride=" ++ decimal (stride p) ++
    ", padding=" ++ decimal (padding p) ++
    (if truthy (_padding p) then "(" ++ decimal (_padding p) ++ ")" else "") ++
    "]"
  end.

(** The description of a layer that has one: the class name, the name,
    the bracketed part. *)
Definition description_text (self : Layer) : string :=
  class_name (cls self) ++ name_text (name self) ++ params_text self.

(** A layer no [int] of which is over the limit of [str]. *)
Definition digits_within (int_max_str_digits : nat) (self : Layer) : Prop :=
  (∀ p, conv_params self = Some p → ¬ exceeds int_max_str_digits p) ∧
  ¬ too_long int_max_str_digits (output_size self) ∧
  ¬ too_long int_max_str_digits (receptive_field_size self).

(** A layer the table has room for: a name that can be appended, no
    [int] over the limit, and sizes that are there and fit their
    columns. *)
Definition printable (int_max_str_digits : nat) (self : Layer) : Prop :=
  (∀ z, name self = VInt z → z = 0) ∧
  digits_within int_max_str_digits self ∧
  output_size self ≠ VNone ∧ receptive_field_size self ≠ VNone ∧
  (String.length (decimal (output_size self)) ≤ 12)%nat ∧
  (String.length (decimal (receptive_field_size self)) ≤ 16)%nat.

(** The row of a layer in the table, for a first column of [width0]. *)
Definition row_text (width0 : nat) (self : Layer) : string :=
  ljust (description_text self) width0
  ++ " | " ++ center (decimal (output_size self)) 12
  ++ " | " ++ center (decimal (receptive_field_size self)) 16.

(** The width the first call of [build_output_table] gives the first
    column: the length of the longest description. *)
Definition first_width (layers : store) : nat :=
  max_length (description_text <$> layers).

(** The branch of [main] that a configuration which is not empty takes. *)
Definition build_and_calculate (config : Config) (input_size : value)
    : Config * outcome store :=
  match build_layers_from_config config input_size with
  | (config', Raise e) => (config', Raise e)
  | (config', Ok layers) =>
    match calculate_layers layers with
    | (_, Raise e) => (config', Raise e)
    | (layers', Ok _) => (config', Ok layers')
    end
  end.

(** ** Examples from the specification *)

Definition conv3 : record := {[ "kernel_size" := VInt 3 ]}.
Definition pool2 : record := {[ "type" := VStr "Pool"; "k" := VInt 2 ]}.

Definition example_input : Layer := Input_init (VInt 10) VNone.
Definition example_params : ConvParams :=
  mkConvParams (VInt 3) (VInt 1) (VInt 1) (VStr "same").
Definition example_conv : Layer := Layer_init (Conv example_params) VNone.

Definition example_pool : Layer :=
  Layer_init (Pool (mkConvParams (VInt 2) (VInt 1) (VInt 2) (VStr "same"))) VNone.
Definition example_chain : store := [example_input; example_conv; example_pool].

(** A [Conv] whose kernel has 641 digits, one more than the least limit
    that can be set. *)
Definition wide_params : ConvParams :=
  mkConvParams (VInt (10 ^ 640)) (VInt 0) (VInt 1) VNone.
Definition wide_conv : Layer := Layer_init (Conv wide_params) VNone.

Definition dense : record := {[ "type" := VStr "Dense"; "k" := VInt 2 ]}.
Definition both_kernels : record := {[ "kernel_size" := VInt 5; "k" := VInt 3 ]}.
Definition abbreviated : record :=
  {[ "k" := VInt 3; "s" := VInt 2; "p" := VInt 0 ]}.

Definition pool_with_stride : record :=
  {[ "type" := VStr "pool"; "k" := VInt 2; "stride" := VInt 3; "padding" := VInt 0 ]}.

(** * Properties *)

(** The worked example of the specification: a convolution of kernel 3
    and a pooling of size 2 on an input of size 10. *)
Example main_conv3_pool2 :
  match (main (ConfigList [conv3; pool2]) (VInt 10)).2 with
  | Ok layers => derived <$> layers
  | Raise _ => []
  end
  = [(VInt 10, VInt 1, Some float_half, VInt 1);
     (VInt 10, VInt 3, Some float_half, VInt 1);
     (VInt 5, VInt 4, Some (S754_finite true 4503599627370496 (-53)), VInt 2)].
Proof. reflexivity. Qed.

(** Without an input size the first [calculate] raises. *)
Example main_no_input_size :
  (main (ConfigList [conv3; pool2]) VNone).2 = Raise TypeError.
Proof. reflexivity. Qed.

Example lower_mixed_case : lower "CoNv" = "conv".
Proof. reflexivity. Qed.

(** ** The methods of [Conv] on [int] attributes *)

Section IntegerConv.

Variables (p : ConvParams) (K S P : Z).
Hypothesis kernel_int : kernel p = VInt K.
Hypothesis stride_int : stride p = VInt S.
Hypothesis padding_int : padding p = VInt P.

Lemma calculate_output_size_int (N : Z) :
  S ≠ 0 →
  calculate_output_size p (VInt N) = Ok (VInt (K mod 2 + (N + 2 * P - K) / S)).
Proof using kernel_int stride_int padding_int.
  intros HS. unfold calculate_output_size.
  rewrite kernel_int, stride_int, padding_int. simpl.
  destruct (decide (S = 0)); [contradiction | reflexivity].
Qed.

Lemma calculate_output_size_zero_stride (N : Z) :
  S = 0 → calculate_output_size p (VInt N) = Raise ZeroDivisionError.
Proof using kernel_int stride_int padding_int.
  intros ->. unfold calculate_output_size.
  rewrite kernel_int, stride_int, padding_int. reflexivity.
Qed.

Lemma calculate_output_jump_int (J : Z) :
  calculate_output_jump p (VInt J) = Ok (VInt (J * S)).
Proof using stride_int.
  unfold calculate_output_jump. rewrite stride_int. reflexivity.
Qed.

Lemma calculate_receptive_field_size_int (R J : Z) :
  calculate_receptive_field_size p (VInt R) (VInt J) = Ok (VInt (R + (K - 1) * J)).
Proof using kernel_int.
  unfold calculate_receptive_field_size. rewrite kernel_int. reflexivity.
Qed.

Lemma calculate_receptive_field_center_int (C x : float) (J : Z) :
  float_of_int (((K - 1) / 2 - P) * J) = Ok x →
  calculate_receptive_field_center p (Some C) (VInt J) = Ok (float_add C x).
Proof using kernel_int padding_int.
  intros Hx. unfold calculate_receptive_field_center.
  rewrite kernel_int, padding_int. simpl. rewrite Hx. reflexivity.
Qed.

End IntegerConv.

(** [calculate] on [int] attributes and a predecessor whose attributes
    are an [int] size, an [int] field, a [float] center and an [int] jump. *)
Lemma calculate_int
    (self input_layer : Layer) (p : ConvParams) (K S P N R J : Z) (C x : float) :
  conv_params self = Some p →
  kernel p = VInt K → stride p = VInt S → padding p = VInt P →
  S ≠ 0 →
  derived input_layer = (VInt N, VInt R, Some C, VInt J) →
  float_of_int (((K - 1) / 2 - P) * J) = Ok x →
  calculate self input_layer
  = (mkLayer (cls self) (name self)
       (VInt (K mod 2 + (N + 2 * P - K) / S)) (VInt (R + (K - 1) * J))
       (Some (float_add C x)) (VInt (J * S)), Ok tt).
Proof.
  intros Hp HK HS HP HS0 [= HN HR HC HJ] Hx.
  unfold calculate. rewrite Hp, HN, HR, HC, HJ.
  rewrite (calculate_output_size_int p K S P HK HS HP N HS0).
  rewrite (calculate_receptive_field_size_int p K HK R J).
  rewrite (calculate_receptive_field_center_int p K P HK HP C x J Hx).
  rewrite (calculate_output_jump_int p S HS J).
  reflexivity.
Qed.

(** C1.  A [Conv] layer with [int] kernel [K], stride [S] (not zero) and
    resolved padding [P], applied to a predecessor whose attributes are
    [N], [R], [C] and [J], returns with [output_size] set to
    [K mod 2 + floor ((N + 2 P - K) / S)], [receptive_field_size] to
    [R + (K - 1) J] and [receptive_field_center] to [C] plus the float of
    [(floor ((K - 1) / 2) - P) J], that integer being one a float can hold;
    [jump] is [J S], and the class and the name are kept. *)
Theorem calculate_sets_derived_attributes
    (self input_layer : Layer) (p : ConvParams) (K S P N R J : Z) (C x : float) :
  conv_params self = Some p →
  kernel p = VInt K → stride p = VInt S → padding p = VInt P →
  S ≠ 0 →
  output_size input_layer = VInt N →
  receptive_field_size input_layer = VInt R →
  receptive_field_center input_layer = Some C →
  jump input_layer = VInt J →
  float_of_int (((K - 1) / 2 - P) * J) = Ok x →
  ∃ self',
    calculate self input_layer = (self', Ok tt) ∧
    output_size self' = VInt (K mod 2 + (N + 2 * P - K) / S) ∧
    receptive_field_size self' = VInt (R + (K - 1) * J) ∧
    receptive_field_center self' = Some (float_add C x) ∧
    jump self' = VInt (J * S) ∧
    cls self' = cls self ∧ name self' = name self.
Proof.
  intros Hp HK HS HP HS0 HN HR HC HJ Hx.
  eexists. split.
  - apply (calculate_int self input_layer p K S P N R J C x); try assumption.
    unfold derived. congruence.
  - simpl. tauto.
Qed.

Lemma calculate_sets_derived_attributes_witness :
  ∃ self',
    calculate example_conv example_input = (self', Ok tt) ∧
    output_size self' = VInt (3 mod 2 + (10 + 2 * 1 - 3) / 1) ∧
    receptive_field_size self' = VInt (1 + (3 - 1) * 1) ∧
    receptive_field_center self' = Some (float_add float_half (S754_zero false)) ∧
    jump self' = VInt (1 * 1) ∧
    cls self' = cls example_conv ∧ name self' = name example_conv.
Proof.
  apply (calculate_sets_derived_attributes example_conv example_input
           example_params 3 1 1 10 1 1 float_half (S754_zero false));
    solve [reflexivity | lia].
Defined.

(** ** Construction *)

Lemma Conv_init_same (mk : ConvParams → LayerClass) (K : Z) (stride name : value) :
  Conv_init mk (VInt K) stride (VStr "same") name
  = Ok (Layer_init (mk (mkConvParams (VInt K) (VInt (K / 2)) stride (VStr "same"))) name).
Proof. reflexivity. Qed.

Lemma Conv_init_valid (mk : ConvParams → LayerClass) (kernel stride name : value) :
  Conv_init mk kernel stride (VStr "valid") name
  = Ok (Layer_init (mk (mkConvParams kernel (VInt 0) stride (VStr "valid"))) name).
Proof. reflexivity. Qed.

Lemma Conv_init_verbatim (mk : ConvParams → LayerClass)
    (kernel stride padding name : value) :
  padding ≠ VStr "same" → padding ≠ VStr "valid" →
  Conv_init mk kernel stride padding name
  = Ok (Layer_init (mk (mkConvParams kernel padding stride VNone)) name).
Proof.
  intros Hsame Hvalid. unfold Conv_init.
  destruct (decide (padding = VStr "same")); [contradiction |].
  destruct (decide (padding = VStr "valid")); [contradiction |].
  reflexivity.
Qed.

(** With the policy ['same'] the constructor needs [kernel // 2]: a kernel
    that is not an [int] makes it raise. *)
Lemma Conv_init_same_not_int (mk : ConvParams → LayerClass)
    (kernel stride name : value) :
  (∀ K, kernel ≠ VInt K) →
  Conv_init mk kernel stride (VStr "same") name = Raise TypeError.
Proof.
  intros HK. destruct kernel as [| K |]; try reflexivity.
  destruct (HK K eq_refl).
Qed.

(** A layer that [Conv.__init__] returned has the three attributes
    [Layer.__init__] left at [None] and a [jump] of [1]. *)
Lemma Conv_init_derived (mk : ConvParams → LayerClass)
    (k s pad nm : value) (self : Layer) :
  Conv_init mk k s pad nm = Ok self →
  derived self = (VNone, VNone, None, VInt 1) ∧ name self = nm.
Proof.
  unfold Conv_init. intros H.
  destruct (decide (pad = VStr "same")).
  - destruct (py_floordiv k (VInt 2)); simpl in H; [| discriminate].
    injection H as <-. split; reflexivity.
  - destruct (decide (pad = VStr "valid")); simpl in H;
      injection H as <-; split; reflexivity.
Qed.

(** C3.  [Conv.__init__] resolves the padding argument: ['same'] to
    [K // 2] for an [int] kernel [K], ['valid'] to [0], both remembered as
    the policy in [_padding]; any other value is stored as it is and
    [_padding] is [None]. *)
Theorem Conv_init_resolves_padding (mk : ConvParams → LayerClass)
    (K : Z) (s pad nm : value) :
  (∃ self p, Conv_init mk (VInt K) s (VStr "same") nm = Ok self ∧
     cls self = mk p ∧ padding p = VInt (K / 2) ∧
     _padding p = VStr "same" ∧ kernel p = VInt K ∧ stride p = s) ∧
  (∃ self p, Conv_init mk (VInt K) s (VStr "valid") nm = Ok self ∧
     cls self = mk p ∧ padding p = VInt 0 ∧
     _padding p = VStr "valid" ∧ kernel p = VInt K ∧ stride p = s) ∧
  (pad ≠ VStr "same" → pad ≠ VStr "valid" →
   ∃ self p, Conv_init mk (VInt K) s pad nm = Ok self ∧
     cls self = mk p ∧ padding p = pad ∧
     _padding p = VNone ∧ kernel p = VInt K ∧ stride p = s).
Proof.
  split; [| split].
  - eexists _, _. rewrite Conv_init_same. repeat split.
  - eexists _, _. rewrite Conv_init_valid. repeat split.
  - intros Hsame Hvalid. eexists _, _.
    rewrite Conv_init_verbatim by assumption. repeat split.
Qed.

Lemma Conv_init_resolves_padding_witness :
  (VInt 2 ≠ VStr "same" ∧ VInt 2 ≠ VStr "valid") ∧
  ∃ self p, Conv_init Conv (VInt 5) (VInt 1) (VInt 2) VNone = Ok self ∧
     cls self = Conv p ∧ padding p = VInt 2 ∧
     _padding p = VNone ∧ kernel p = VInt 5 ∧ stride p = VInt 1.
Proof.
  split; [split; discriminate |].
  apply (Conv_init_resolves_padding Conv 5 (VInt 1) (VInt 2) VNone); discriminate.
Defined.

(** ** [Pool] against [Conv] *)

(** [calculate] reads the [Conv] attributes of [self] and no other
    attribute of it: two layers that agree on them finish with the same
    derived attributes and the same outcome. *)
Lemma calculate_by_params (self1 self2 input_layer : Layer) :
  conv_params self1 = conv_params self2 →
  derived self1 = derived self2 →
  derived (calculate self1 input_layer).1 = derived (calculate self2 input_layer).1 ∧
  (calculate self1 input_layer).2 = (calculate self2 input_layer).2.
Proof.
  intros Hp Hd. unfold calculate. rewrite Hp.
  unfold derived in Hd. injection Hd as Ho Hr Hf Hj.
  destruct (conv_params self2) as [p |]; simpl;
    [| unfold derived; split; congruence].
  repeat match goal with
  | |- context [match ?c with Ok _ => _ | Raise _ => _ end] => destruct c; simpl
  end; unfold derived; simpl; split; congruence.
Qed.

(** [Pool(size, name)] is built as [Conv(size, stride=size, name=name)]
    is, the class apart. *)
Lemma Pool_init_as_Conv_init (size nm : value) :
  match Pool_init size nm, Conv_init Conv size size (VStr "same") nm with
  | Ok pool, Ok conv =>
      conv_params pool = conv_params conv ∧ derived pool = derived conv ∧
      name pool = name conv
  | Raise e1, Raise e2 => e1 = e2
  | _, _ => False
  end.
Proof.
  unfold Pool_init, Conv_init. simpl.
  destruct (py_floordiv size (VInt 2)); simpl; [repeat split | reflexivity].
Qed.

(** C2.  For every [int] size and every predecessor, a layer built by
    [Pool(size)] and one built by [Conv(kernel=size, stride=size)] with the
    default padding ['same'] finish [calculate] with the same four derived
    attributes and the same outcome. *)
Theorem Pool_calculates_as_Conv (size : Z) (nm : value) (input_layer : Layer) :
  ∃ pool conv,
    Pool_init (VInt size) nm = Ok pool ∧
    Conv_init Conv (VInt size) (VInt size) (VStr "same") nm = Ok conv ∧
    derived (calculate pool input_layer).1 = derived (calculate conv input_layer).1 ∧
    (calculate pool input_layer).2 = (calculate conv input_layer).2.
Proof.
  eexists _, _. split; [reflexivity |]. split; [reflexivity |].
  apply calculate_by_params; reflexivity.
Qed.

(** ** Kernel parity *)

Lemma div_pred (t S : Z) :
  0 < S →
  (t - 1) / S = t / S - (if decide (t mod S = 0) then 1 else 0).
Proof.
  intros HS.
  pose proof (Z.div_mod t S ltac:(lia)) as Hdm.
  pose proof (Z.mod_pos_bound t S HS) as Hb.
  symmetry. destruct (decide (t mod S = 0)) as [H0 | H0].
  - apply Z.div_unique with (r := S - 1); lia.
  - apply Z.div_unique with (r := t mod S - 1); lia.
Qed.

(** C5, as the code has it.  An odd kernel [K] and the even kernel [K + 1],
    with the same positive stride [S], the same integer padding [P] and the
    same input size [N]: the even kernel's output size is two less than the
    odd kernel's when [S] divides [N + 2 P - K], and one less when it does
    not. *)
Theorem even_kernel_output_size (K S P N : Z) (policy : value) :
  Z.odd K = true → 0 < S →
  ∃ a b,
    calculate_output_size (mkConvParams (VInt K) (VInt P) (VInt S) policy) (VInt N)
      = Ok (VInt a) ∧
    calculate_output_size (mkConvParams (VInt (K + 1)) (VInt P) (VInt S) policy) (VInt N)
      = Ok (VInt b) ∧
    b = a - (if decide ((N + 2 * P - K) mod S = 0) then 2 else 1).
Proof.
  intros Hodd HS.
  eexists _, _. split; [| split].
  - apply (calculate_output_size_int _ K S P); [reflexivity .. | lia].
  - apply (calculate_output_size_int _ (K + 1) S P); [reflexivity .. | lia].
  - rewrite (Zmod_odd K), Hodd, (Zmod_odd (K + 1)).
    rewrite Z.odd_add, Hodd. simpl.
    replace (N + 2 * P - (K + 1)) with (N + 2 * P - K - 1) by lia.
    rewrite div_pred by assumption.
    destruct (decide ((N + 2 * P - K) mod S = 0)); lia.
Qed.

Lemma even_kernel_output_size_witness :
  (Z.odd 3 = true ∧ 0 < 2) ∧
  ∃ a b,
    calculate_output_size (mkConvParams (VInt 3) (VInt 1) (VInt 2) VNone) (VInt 10)
      = Ok (VInt a) ∧
    calculate_output_size (mkConvParams (VInt (3 + 1)) (VInt 1) (VInt 2) VNone) (VInt 10)
      = Ok (VInt b) ∧
    b = a - (if decide ((10 + 2 * 1 - 3) mod 2 = 0) then 2 else 1).
Proof.
  split; [split; [reflexivity | lia] |].
  apply (even_kernel_output_size 3 2 1 10 VNone); [reflexivity | lia].
Defined.

(** C5, as the specification states it, fails: on an input of size 10 with
    stride 1 and padding 1, kernel 3 gives 10 and kernel 4 gives 8; with
    the padding ['same'] for both, kernel 3 and kernel 4 both give 10. *)
Lemma even_kernel_one_less_counterexample :
  ∃ odd even odd' even' odd_same even_same odd_same' even_same',
    Conv_init Conv (VInt 3) (VInt 1) (VInt 1) VNone = Ok odd ∧
    Conv_init Conv (VInt 4) (VInt 1) (VInt 1) VNone = Ok even ∧
    calculate odd example_input = (odd', Ok tt) ∧
    calculate even example_input = (even', Ok tt) ∧
    output_size odd' = VInt 10 ∧ output_size even' = VInt 8 ∧
    Conv_init Conv (VInt 3) (VInt 1) (VStr "same") VNone = Ok odd_same ∧
    Conv_init Conv (VInt 4) (VInt 1) (VStr "same") VNone = Ok even_same ∧
    calculate odd_same example_input = (odd_same', Ok tt) ∧
    calculate even_same example_input = (even_same', Ok tt) ∧
    output_size odd_same' = VInt 10 ∧ output_size even_same' = VInt 10 ∧
    8 ≠ 10 - 1 ∧ 10 ≠ 10 - 1.
Proof.
  eexists _, _, _, _, _, _, _, _.
  repeat (split; [reflexivity |]). split; lia.
Qed.

(** ** What [calculate] needs and what it keeps *)

(** [calculate_output_size] returns only on four [int]s and a stride that
    is not zero. *)
Lemma calculate_output_size_Ok (p : ConvParams) (n v : value) :
  calculate_output_size p n = Ok v →
  ∃ K S P N, kernel p = VInt K ∧ stride p = VInt S ∧ padding p = VInt P ∧
    n = VInt N ∧ S ≠ 0 ∧ v = VInt (K mod 2 + (N + 2 * P - K) / S).
Proof.
  destruct p as [k pd st pol]. unfold calculate_output_size. simpl.
  destruct k as [| K |], pd as [| P |], n as [| N |], st as [| S |];
    simpl; try discriminate.
  destruct (decide (S = 0)); simpl; [discriminate |].
  intros [= <-]. exists K, S, P, N. repeat split; assumption.
Qed.

(** [calculate] changes neither the class nor the name. *)
Lemma calculate_keeps_class (self input_layer : Layer) :
  cls (calculate self input_layer).1 = cls self ∧
  name (calculate self input_layer).1 = name self.
Proof.
  unfold calculate.
  destruct (conv_params self) as [p |]; simpl; [| split; reflexivity].
  repeat match goal with
  | |- context [match ?c with Ok _ => _ | Raise _ => _ end] => destruct c; simpl
  end; split; reflexivity.
Qed.

(** When [calculate] returns, the jump it assigned is the predecessor's
    jump times the stride, an [int]. *)
Lemma calculate_Ok_jump (self self' input_layer : Layer) (J : Z) :
  calculate self input_layer = (self', Ok tt) →
  jump input_layer = VInt J →
  ∃ S, stride_int self = Some S ∧ jump self' = VInt (J * S).
Proof.
  unfold calculate, stride_int. intros H HJ.
  destruct (conv_params self) as [p |]; [| discriminate].
  destruct (calculate_output_size p _) as [size |] eqn:Hsize; [| discriminate].
  apply calculate_output_size_Ok in Hsize as (K & S & P & N & _ & HS & _).
  destruct (calculate_receptive_field_size p _ _); [| discriminate].
  destruct (calculate_receptive_field_center p _ _); [| discriminate].
  rewrite HJ, (calculate_output_jump_int p S HS J) in H.
  injection H as <-. exists S. rewrite HS. split; reflexivity.
Qed.

(** ** The loop *)

Lemma final_seq (previous_layer k : nat) :
  final previous_layer (seq (S previous_layer) k) = (previous_layer + k)%nat.
Proof.
  revert previous_layer. induction k as [| k IH]; intros previous_layer; simpl.
  - lia.
  - rewrite IH. lia.
Qed.

(** Iterating over [rest1 ++ rest2] is iterating over [rest1] and then,
    unless that raised, over [rest2]. *)
Lemma calculate_each_app (layers : store) (previous_layer : nat)
    (rest1 rest2 : list nat) :
  calculate_each layers previous_layer (rest1 ++ rest2) =
  match calculate_each layers previous_layer rest1 with
  | (layers', Ok _) => calculate_each layers' (final previous_layer rest1) rest2
  | (layers', Raise e) => (layers', Raise e)
  end.
Proof.
  revert layers previous_layer.
  induction rest1 as [| layer rest1 IH]; intros layers previous_layer; simpl.
  - reflexivity.
  - destruct (layers !! layer) as [self |]; [| reflexivity].
    destruct (layers !! previous_layer) as [input_layer |]; [| reflexivity].
    destruct (calculate self input_layer) as [self' [[] | e]]; [| reflexivity].
    apply IH.
Qed.

Lemma calculate_each_length (layers : store) (previous_layer : nat)
    (rest : list nat) :
  length (calculate_each layers previous_layer rest).1 = length layers.
Proof.
  revert layers previous_layer.
  induction rest as [| layer rest IH]; intros layers previous_layer; simpl.
  - reflexivity.
  - destruct (layers !! layer) as [self |]; [| reflexivity].
    destruct (layers !! previous_layer) as [input_layer |]; [| reflexivity].
    destruct (calculate self input_layer) as [self' [[] | e]]; simpl.
    + rewrite IH. apply length_insert.
    + apply length_insert.
Qed.

(** The loop assigns to the objects it iterates over and to no other. *)
Lemma calculate_each_frame (layers : store) (previous_layer : nat)
    (rest : list nat) (i : nat) :
  i ∉ rest →
  (calculate_each layers previous_layer rest).1 !! i = layers !! i.
Proof.
  revert layers previous_layer.
  induction rest as [| layer rest IH]; intros layers previous_layer Hi; simpl.
  - reflexivity.
  - apply not_elem_of_cons in Hi as [Hne Hi].
    destruct (layers !! layer) as [self |]; [| reflexivity].
    destruct (layers !! previous_layer) as [input_layer |]; [| reflexivity].
    destruct (calculate self input_layer) as [self' [[] | e]]; simpl.
    + rewrite IH by assumption. apply list_lookup_insert_ne. congruence.
    + apply list_lookup_insert_ne. congruence.
Qed.

(** One more iteration, on the layer at [S k] with the layer at [k] as its
    predecessor. *)
Lemma calculate_each_step (layers layers_k : store) (k : nat) :
  calculate_each layers 0 (seq 1 k) = (layers_k, Ok tt) →
  calculate_each layers 0 (seq 1 (S k)) =
  match layers_k !! S k, layers_k !! k with
  | Some self, Some input_layer =>
      (<[S k := (calculate self input_layer).1]> layers_k,
       (calculate self input_layer).2)
  | _, _ => (layers_k, Raise IndexError)
  end.
Proof.
  intros Hk. rewrite seq_S, calculate_each_app, Hk, final_seq. simpl.
  destruct (layers_k !! S k) as [self |]; [| reflexivity].
  destruct (layers_k !! k) as [input_layer |]; [| reflexivity].
  destruct (calculate self input_layer) as [self' [[] | e]]; reflexivity.
Qed.

(** The iterations before the last one returned when the loop did. *)
Lemma calculate_each_prefix_Ok (layers layers' : store) (k : nat) :
  calculate_each layers 0 (seq 1 (S k)) = (layers', Ok tt) →
  ∃ layers_k, calculate_each layers 0 (seq 1 k) = (layers_k, Ok tt).
Proof.
  rewrite seq_S, calculate_each_app.
  destruct (calculate_each layers 0 (seq 1 k)) as [layers_k [[] | e]].
  - intros _. exists layers_k. reflexivity.
  - discriminate.
Qed.

(** ** The jump along a chain *)

Lemma foldr_mul_last (a : Z) (l : list Z) :
  foldr Z.mul a l = foldr Z.mul 1 l * a.
Proof. induction l as [| x l IH]; simpl; [lia | rewrite IH; lia]. Qed.

Lemma stride_product_insert (layers : store) (i j : nat) (self : Layer) :
  (i < j)%nat →
  stride_product (<[j := self]> layers) i = stride_product layers i.
Proof.
  intros Hij. unfold stride_product. rewrite take_insert_ge by lia. reflexivity.
Qed.

Lemma stride_product_last (layers : store) (k : nat) (self : Layer) (s : Z) :
  (S k < length layers)%nat →
  stride_int self = Some s →
  stride_product (<[S k := self]> layers) (S k) = stride_product layers k * s.
Proof.
  intros Hk Hs. unfold stride_product.
  rewrite (take_S_r _ (S k) self) by (apply list_lookup_insert_eq; lia).
  rewrite take_insert_ge by lia.
  rewrite omap_app, foldr_app. simpl. rewrite Hs. simpl.
  rewrite foldr_mul_last. lia.
Qed.

Lemma stride_int_calculate (self input_layer : Layer) :
  stride_int (calculate self input_layer).1 = stride_int self.
Proof.
  unfold stride_int, conv_params.
  destruct (calculate_keeps_class self input_layer) as [-> _]. reflexivity.
Qed.

(** The invariant of the loop: after [k] iterations that returned, the
    jump of each of the layers at positions [0] to [k] is the product of
    the strides up to it. *)
Lemma jump_invariant (layers : store) (first : Layer) (k : nat) :
  layers !! 0%nat = Some first →
  jump first = VInt 1 → stride_int first = None →
  ∀ layers',
    calculate_each layers 0 (seq 1 k) = (layers', Ok tt) →
    ∀ i, (i ≤ k)%nat →
      ∃ l, layers' !! i = Some l ∧ jump l = VInt (stride_product layers' i).
Proof.
  intros Hfirst Hjump Hstride.
  induction k as [| k IH]; intros layers' Hrun i Hi.
  - simpl in Hrun. injection Hrun as <-.
    assert (i = 0%nat) as -> by lia.
    exists first. split; [assumption |].
    destruct layers as [| l0 layers]; [discriminate |].
    injection Hfirst as ->.
    unfold stride_product. simpl. rewrite Hstride. simpl.
    rewrite ?take_0. simpl. assumption.
  - destruct (calculate_each_prefix_Ok _ _ _ Hrun) as [layers_k Hk].
    rewrite (calculate_each_step _ _ _ Hk) in Hrun.
    destruct (layers_k !! S k) as [self |] eqn:Hself; [| discriminate].
    destruct (layers_k !! k) as [input_layer |] eqn:Hinput; [| discriminate].
    injection Hrun as <- Hr.
    assert (S k < length layers_k)%nat as Hlen
      by (apply lookup_lt_is_Some; eauto).
    destruct (decide (i = S k)) as [-> | Hne].
    + destruct (IH layers_k Hk k (le_n k)) as (l & Hl & Hj).
      rewrite Hinput in Hl. injection Hl as <-.
      destruct (calculate self input_layer) as [self' r] eqn:Hcalc.
      simpl in Hr. subst r.
      destruct (calculate_Ok_jump _ _ _ _ Hcalc Hj) as (s & Hs & Hj').
      exists self'. simpl. split; [apply list_lookup_insert_eq; assumption |].
      rewrite (stride_product_last _ _ _ s Hlen); [assumption |].
      rewrite <- Hs.
      change self' with (self', @Ok unit tt).1. rewrite <- Hcalc.
      apply stride_int_calculate.
    + destruct (IH layers_k Hk i ltac:(lia)) as (l & Hl & Hj).
      exists l. split.
      * rewrite list_lookup_insert_ne by lia. assumption.
      * rewrite stride_product_insert by lia. assumption.
Qed.

(** The strides are those of the layers as they were built: the loop
    changes no class. *)
Lemma calculate_each_class (layers : store) (previous_layer : nat)
    (rest : list nat) :
  cls <$> (calculate_each layers previous_layer rest).1 = cls <$> layers.
Proof.
  revert layers previous_layer.
  induction rest as [| layer rest IH]; intros layers previous_layer; simpl.
  - reflexivity.
  - destruct (layers !! layer) as [self |] eqn:Hself; [| reflexivity].
    destruct (layers !! previous_layer) as [input_layer |]; [| reflexivity].
    pose proof (calculate_keeps_class self input_layer) as [Hcls _].
    assert (cls <$> <[layer := (calculate self input_layer).1]> layers
            = cls <$> layers) as Hins.
    { rewrite list_fmap_insert, Hcls. apply list_insert_id.
      rewrite list_lookup_fmap, Hself. reflexivity. }
    destruct (calculate self input_layer) as [self' [[] | e]]; simpl in *.
    + rewrite IH. assumption.
    + assumption.
Qed.

Lemma stride_product_class (layers1 layers2 : store) (i : nat) :
  cls <$> layers1 = cls <$> layers2 →
  stride_product layers1 i = stride_product layers2 i.
Proof.
  intros Hcls. unfold stride_product. f_equal.
  assert (∀ l : store, omap stride_int l
            = omap (λ c, stride_int (mkLayer c VNone VNone VNone None VNone))
                   (cls <$> l)) as Hvia.
  { intros l. induction l as [| x l IH]; [reflexivity |].
    rewrite fmap_cons. cbn [omap list_omap]. rewrite IH. reflexivity. }
  rewrite !Hvia, !fmap_take, Hcls. reflexivity.
Qed.

(** C4.  In a chain that starts with an [Input], after [k] iterations of
    the loop of [main] that returned, the jump of each of the layers at
    positions [0] to [k] is the product of the strides of the layers that
    are not an [Input] up to and including it; the [Input] has jump [1].
    [k] ranges over the prefixes of the chain, the whole chain included. *)
Theorem jump_is_stride_product (size nm : value) (rest layers' : store) (k : nat) :
  calculate_each (Input_init size nm :: rest) 0 (seq 1 k) = (layers', Ok tt) →
  jump (Input_init size nm) = VInt 1 ∧
  ∀ i, (i ≤ k)%nat →
    ∃ l, layers' !! i = Some l ∧
         jump l = VInt (stride_product (Input_init size nm :: rest) i).
Proof.
  intros Hrun. split; [reflexivity |]. intros i Hi.
  destruct (jump_invariant (Input_init size nm :: rest) (Input_init size nm) k
              eq_refl eq_refl eq_refl layers' Hrun i Hi) as (l & Hl & Hj).
  exists l. split; [assumption |]. rewrite Hj. f_equal.
  apply stride_product_class.
  change layers' with (layers', @Ok unit tt).1. rewrite <- Hrun.
  apply calculate_each_class.
Qed.

Lemma calculate_layers_unfold (first : Layer) (rest : store) :
  calculate_layers (first :: rest)
  = calculate_each (first :: rest) 0 (seq 1 (length rest)).
Proof.
  unfold calculate_layers, tail_positions. simpl. rewrite Nat.sub_0_r. reflexivity.
Qed.

Lemma jump_is_stride_product_witness :
  calculate_each (Input_init (VInt 10) VNone :: [example_conv; example_pool]) 0 (seq 1 2)
  = ((calculate_layers example_chain).1, Ok tt) ∧
  jump (Input_init (VInt 10) VNone) = VInt 1 ∧
  ∀ i, (i ≤ 2)%nat →
    ∃ l, (calculate_layers example_chain).1 !! i = Some l ∧
         jump l = VInt (stride_product
                          (Input_init (VInt 10) VNone :: [example_conv; example_pool]) i).
Proof.
  split; [reflexivity |].
  apply (jump_is_stride_product (VInt 10) VNone [example_conv; example_pool]
           (calculate_layers example_chain).1 2).
  reflexivity.
Defined.

(** ** Identity convolutions *)

Lemma calculate_identity (self input_layer : Layer) (N : Z) :
  identity_conv self → baseline N input_layer →
  ∃ self', calculate self input_layer = (self', Ok tt) ∧ baseline N self'.
Proof.
  intros (p & Hp & HK & HS & HP) Hbase.
  rewrite (calculate_int self input_layer p 1 1 0 N 1 1 float_half (S754_zero false)
             Hp HK HS HP ltac:(lia) Hbase eq_refl).
  eexists. split; [reflexivity |].
  unfold baseline, derived. simpl. do 4 f_equal.
  rewrite Z.div_1_r. change (1 mod 2) with 1. lia.
Qed.

(** Every iteration over a chain of identity convolutions returns and
    leaves the attributes of the [Input] on the layer. *)
Lemma identity_chain_invariant (layers : store) (first : Layer) (N : Z) (k : nat) :
  layers !! 0%nat = Some first → baseline N first →
  (∀ i l, (1 ≤ i)%nat → layers !! i = Some l → identity_conv l) →
  (k < length layers)%nat →
  ∃ layers',
    calculate_each layers 0 (seq 1 k) = (layers', Ok tt) ∧
    ∀ i, (i ≤ k)%nat → ∃ l, layers' !! i = Some l ∧ baseline N l.
Proof.
  intros Hfirst Hbase Hid.
  induction k as [| k IH]; intros Hk.
  - exists layers. split; [reflexivity |]. intros i Hi.
    assert (i = 0%nat) as -> by lia. eauto.
  - destruct (IH ltac:(lia)) as (layers_k & Hrun & Hinv).
    rewrite (calculate_each_step _ _ _ Hrun).
    assert (layers_k !! S k = layers !! S k) as Hframe.
    { change layers_k with (layers_k, @Ok unit tt).1. rewrite <- Hrun.
      apply calculate_each_frame. rewrite elem_of_seq. lia. }
    destruct (lookup_lt_is_Some_2 layers (S k) Hk) as [self Hself].
    rewrite Hframe, Hself.
    destruct (Hinv k (le_n k)) as (input_layer & Hinput & Hbase_k).
    rewrite Hinput.
    destruct (calculate_identity self input_layer N
                (Hid (S k) self ltac:(lia) Hself) Hbase_k) as (self' & Hcalc & Hbase').
    rewrite Hcalc. simpl. eexists. split; [reflexivity |].
    assert (S k < length layers_k)%nat as Hlen.
    { apply lookup_lt_is_Some. rewrite Hframe. eauto. }
    intros i Hi. destruct (decide (i = S k)) as [-> | Hne].
    + exists self'. split; [apply list_lookup_insert_eq; assumption | assumption].
    + destruct (Hinv i ltac:(lia)) as (l & Hl & Hb).
      exists l. split; [| assumption].
      rewrite list_lookup_insert_ne by lia. assumption.
Qed.

(** C6.  For every input size [N] and every [k], the chain of [Input(N)]
    and [k] layers [Conv(kernel=1, stride=1, padding=0)]: the loop of
    [main] returns, and every layer of the chain then has output size [N],
    receptive field size [1], receptive field center [0.5] and jump [1].
    With [k = 0] the chain is the [Input] alone. *)
Theorem identity_chain_unchanged (N : Z) (k : nat) :
  ∃ conv layers',
    Conv_init Conv (VInt 1) (VInt 1) (VInt 0) VNone = Ok conv ∧
    calculate_layers (Input_init (VInt N) VNone :: replicate k conv)
    = (layers', Ok tt) ∧
    length layers' = S k ∧
    ∀ l, l ∈ layers' →
      output_size l = VInt N ∧ receptive_field_size l = VInt 1 ∧
      receptive_field_center l = Some float_half ∧ jump l = VInt 1.
Proof.
  eexists. 
  destruct (identity_chain_invariant
              (Input_init (VInt N) VNone
               :: replicate k (Layer_init (Conv (mkConvParams (VInt 1) (VInt 0) (VInt 1) VNone)) VNone))
              (Input_init (VInt N) VNone) N k) as (layers' & Hrun & Hinv).
  - reflexivity.
  - reflexivity.
  - intros [| i] l Hi Hl; [lia |]. simpl in Hl.
    apply lookup_replicate_1 in Hl as [-> _].
    eexists. repeat split.
  - simpl. rewrite length_replicate. lia.
  - exists layers'. split; [reflexivity |].
    assert (length layers' = S k) as Hlen.
    { change layers' with (layers', @Ok unit tt).1. rewrite <- Hrun.
      rewrite calculate_each_length. simpl. rewrite length_replicate. reflexivity. }
    split; [| split; [assumption |]].
    + rewrite calculate_layers_unfold, length_replicate. assumption.
    + intros l Hl. apply list_elem_of_lookup_1 in Hl as [i Hi].
      assert (i < S k)%nat as Hlt by (rewrite <- Hlen; apply lookup_lt_is_Some; eauto).
      destruct (Hinv i ltac:(lia)) as (l' & Hl' & Hb).
      rewrite Hi in Hl'. injection Hl' as <-.
      unfold baseline, derived in Hb. injection Hb as -> -> -> ->. repeat split.
Qed.

(** ** The life of the derived attributes *)

(** C7, as the code has it.  A layer that [Conv.__init__] returned (a
    [Conv] or a [Pool]) has [output_size], [receptive_field_size] and
    [receptive_field_center] at [None] and [jump] at [1].  In the loop of
    [main], the object at a position the loop has not reached is as it was
    built, the iteration at [S n] assigns the result of [calculate] to the
    object at [S n], and later iterations leave the objects at the
    positions already passed as they are. *)
Theorem derived_attributes_lifecycle :
  (∀ mk k s pad nm self,
     Conv_init mk k s pad nm = Ok self →
     output_size self = VNone ∧ receptive_field_size self = VNone ∧
     receptive_field_center self = None ∧ jump self = VInt 1) ∧
  (∀ (layers layers_n layers_end : store) (n m : nat) r,
     calculate_each layers 0 (seq 1 n) = (layers_n, Ok tt) →
     calculate_each layers 0 (seq 1 (n + m)) = (layers_end, r) →
     (∀ i, (n < i)%nat → layers_n !! i = layers !! i) ∧
     (∀ i, (i ≤ n)%nat → layers_end !! i = layers_n !! i)) ∧
  (∀ (layers layers_n : store) (n : nat) self input_layer,
     calculate_each layers 0 (seq 1 n) = (layers_n, Ok tt) →
     layers_n !! S n = Some self → layers_n !! n = Some input_layer →
     calculate_each layers 0 (seq 1 (S n))
     = (<[S n := (calculate self input_layer).1]> layers_n,
        (calculate self input_layer).2)).
Proof.
  split; [| split].
  - intros mk k s pad nm self Hinit.
    destruct (Conv_init_derived mk k s pad nm self Hinit) as [Hd _].
    unfold derived in Hd. injection Hd as -> -> -> ->. repeat split.
  - intros layers layers_n layers_end n m r Hn Hend. split.
    + intros i Hi. change layers_n with (layers_n, @Ok unit tt).1.
      rewrite <- Hn. apply calculate_each_frame. rewrite elem_of_seq. lia.
    + intros i Hi.
      rewrite seq_app, calculate_each_app, Hn, final_seq in Hend. simpl in Hend.
      change layers_end with (layers_end, r).1. rewrite <- Hend.
      apply calculate_each_frame. rewrite elem_of_seq. lia.
  - intros layers layers_n n self input_layer Hn Hself Hinput.
    rewrite (calculate_each_step _ _ _ Hn), Hself, Hinput. reflexivity.
Qed.

Lemma derived_attributes_lifecycle_witness :
  (Conv_init Conv (VInt 3) (VInt 1) (VStr "same") VNone = Ok example_conv ∧
   output_size example_conv = VNone ∧ receptive_field_size example_conv = VNone ∧
   receptive_field_center example_conv = None ∧ jump example_conv = VInt 1) ∧
  (calculate_each example_chain 0 (seq 1 1)
   = ((calculate_each example_chain 0 (seq 1 1)).1, Ok tt) ∧
   (∀ i, (1 < i)%nat →
      (calculate_each example_chain 0 (seq 1 1)).1 !! i = example_chain !! i) ∧
   (∀ i, (i ≤ 1)%nat →
      (calculate_each example_chain 0 (seq 1 (1 + 1))).1 !! i
      = (calculate_each example_chain 0 (seq 1 1)).1 !! i)).
Proof.
  split.
  - split; [reflexivity |].
    apply (proj1 derived_attributes_lifecycle
             Conv (VInt 3) (VInt 1) (VStr "same") VNone).
    reflexivity.
  - split; [reflexivity |].
    apply (proj1 (proj2 derived_attributes_lifecycle)
             example_chain (calculate_each example_chain 0 (seq 1 1)).1
             (calculate_each example_chain 0 (seq 1 (1 + 1))).1 1%nat 1%nat (Ok tt));
      reflexivity.
Defined.

(** C7, as the specification states it, fails on [jump]: a layer just
    built holds [1] there, not [None]. *)
Lemma new_layer_jump_counterexample :
  ∃ self,
    Conv_init Conv (VInt 3) (VInt 1) (VStr "same") VNone = Ok self ∧
    jump self = VInt 1 ∧ jump self ≠ VNone.
Proof. eexists. split; [reflexivity |]. split; [reflexivity | discriminate]. Qed.

(** ** Configuration records *)

Lemma get_default (config : record) (key : string) (d : value) :
  get config key d = default d (config !! key).
Proof. unfold get. destruct (config !! key); reflexivity. Qed.

Lemma use_shortcuts_kernel_size (config : record) :
  use_shortcuts config !! "kernel_size"
  = first_present ["kernel_size"; "kernel"; "k"] config.
Proof.
  unfold use_shortcuts, use_padding_shortcuts, use_stride_shortcuts,
    use_kernel_size_shortcuts.
  simpl. repeat case_match; simplify_map_eq; done.
Qed.

Lemma use_shortcuts_stride (config : record) :
  use_shortcuts config !! "stride" = first_present ["stride"; "s"] config.
Proof.
  unfold use_shortcuts, use_padding_shortcuts, use_stride_shortcuts,
    use_kernel_size_shortcuts.
  simpl. repeat case_match; simplify_map_eq; done.
Qed.

Lemma use_shortcuts_padding (config : record) :
  use_shortcuts config !! "padding" = first_present ["padding"; "p"] config.
Proof.
  unfold use_shortcuts, use_padding_shortcuts, use_stride_shortcuts,
    use_kernel_size_shortcuts.
  simpl. repeat case_match; simplify_map_eq; done.
Qed.

(** The shortcuts write to the three full keys and to no other key. *)
Lemma use_shortcuts_other (config : record) (key : string) :
  key ≠ "kernel_size" → key ≠ "stride" → key ≠ "padding" →
  use_shortcuts config !! key = config !! key.
Proof.
  intros Hk Hs Hp.
  unfold use_shortcuts, use_padding_shortcuts, use_stride_shortcuts,
    use_kernel_size_shortcuts.
  repeat case_match; simplify_map_eq; done.
Qed.

(** They overwrite nothing. *)
Lemma use_shortcuts_present (config : record) (key : string) (v : value) :
  config !! key = Some v → use_shortcuts config !! key = Some v.
Proof.
  intros Hv.
  destruct (decide (key = "kernel_size")) as [-> |];
    [rewrite use_shortcuts_kernel_size; simpl; rewrite Hv; reflexivity |].
  destruct (decide (key = "stride")) as [-> |];
    [rewrite use_shortcuts_stride; simpl; rewrite Hv; reflexivity |].
  destruct (decide (key = "padding")) as [-> |];
    [rewrite use_shortcuts_padding; simpl; rewrite Hv; reflexivity |].
  rewrite use_shortcuts_other by assumption. assumption.
Qed.

(** With a type that is a [str], or none, the record the function leaves
    behind is the record with the shortcuts written. *)
Lemma create_layer_from_config_record (config : record) (ty : string) :
  get config "type" (VStr "conv") = VStr ty →
  (create_layer_from_config config).1 = use_shortcuts config.
Proof.
  intros Hty. unfold create_layer_from_config. rewrite Hty. simpl.
  repeat case_match; reflexivity.
Qed.

Lemma Conv_init_Ok (mk : ConvParams → LayerClass) (k s pad nm : value)
    (self : Layer) :
  Conv_init mk k s pad nm = Ok self →
  ∃ p, cls self = mk p ∧ kernel p = k ∧ stride p = s ∧ name self = nm.
Proof.
  unfold Conv_init. intros H.
  destruct (decide (pad = VStr "same")).
  - destruct (py_floordiv k (VInt 2)); simpl in H; [| discriminate].
    injection H as <-. eexists. repeat split.
  - destruct (decide (pad = VStr "valid")); simpl in H;
      injection H as <-; eexists; repeat split.
Qed.

(** A layer is returned only for a type that lowers to ['conv'] or
    ['pool']. *)
Lemma create_layer_from_config_Ok_type (config config' : record) (layer : Layer) :
  create_layer_from_config config = (config', Ok layer) →
  ∃ ty, get config "type" (VStr "conv") = VStr ty ∧
        (lower ty = "conv" ∨ lower ty = "pool").
Proof.
  unfold create_layer_from_config, py_lower.
  destruct (get config "type" (VStr "conv")) as [| z | ty]; try discriminate.
  intros H. exists ty. split; [reflexivity |].
  destruct (decide (lower ty = "conv")); [left; assumption |].
  destruct (decide (lower ty = "pool")); [right; assumption | discriminate].
Qed.

(** C8.  A record whose type, lowered, is neither ['conv'] nor ['pool']:
    [create_layer_from_config] raises, after it has written the shortcuts
    into the record; no layer is returned. *)
Theorem unknown_layer_type_raises (config : record) (ty : string) :
  get config "type" (VStr "conv") = VStr ty →
  lower ty ≠ "conv" → lower ty ≠ "pool" →
  create_layer_from_config config = (use_shortcuts config, Raise UnboundLocalError).
Proof.
  intros Hty Hconv Hpool. unfold create_layer_from_config. rewrite Hty. simpl.
  destruct (decide (lower ty = "conv")); [contradiction |].
  destruct (decide (lower ty = "pool")); [contradiction |].
  reflexivity.
Qed.

Lemma unknown_layer_type_raises_witness :
  (get dense "type" (VStr "conv") = VStr "Dense" ∧
   lower "Dense" ≠ "conv" ∧ lower "Dense" ≠ "pool") ∧
  create_layer_from_config dense = (use_shortcuts dense, Raise UnboundLocalError).
Proof.
  split; [repeat split; (reflexivity || discriminate) |].
  apply (unknown_layer_type_raises dense "Dense");
    (reflexivity || discriminate).
Defined.

(** With an [int] kernel under one of its keys and a type that lowers to
    ['conv'] or ['pool'], a layer is returned. *)
Lemma create_layer_from_config_returns (config : record) (ty : string) (K : Z) :
  get config "type" (VStr "conv") = VStr ty →
  lower ty = "conv" ∨ lower ty = "pool" →
  first_present ["kernel_size"; "kernel"; "k"] config = Some (VInt K) →
  ∃ layer, create_layer_from_config config = (use_shortcuts config, Ok layer).
Proof.
  intros Hty Hknown HK. unfold create_layer_from_config. rewrite Hty. simpl.
  rewrite use_shortcuts_kernel_size, HK.
  assert (∀ mk s pad nm, ∃ layer, Conv_init mk (VInt K) s pad nm = Ok layer) as Hinit.
  { intros mk s pad nm. unfold Conv_init.
    destruct (decide (pad = VStr "same")); [eexists; reflexivity |].
    destruct (decide (pad = VStr "valid")); eexists; reflexivity. }
  destruct (decide (lower ty = "conv")).
  - destruct (Hinit Conv (get (use_shortcuts config) "stride" (VInt 1))
                (get (use_shortcuts config) "padding" (VStr "same"))
                (get (use_shortcuts config) "name" VNone)) as [layer ->].
    eauto.
  - destruct (decide (lower ty = "pool")); [| tauto].
    destruct (Hinit Pool (VInt K) (VStr "same")
                (get (use_shortcuts config) "name" VNone)) as [layer Hl].
    unfold Pool_init. rewrite Hl. eauto.
Qed.

(** C9, as the code has it.  For a record whose type is ['conv'] or absent,
    the layer is the [Conv] built from the value of the first of
    ['kernel_size'], ['kernel'], ['k'] the record has, from that of the
    first of ['stride'], ['s'], or [1], and from that of the first of
    ['padding'], ['p'], or ['same']; without any of the kernel keys the
    call raises [KeyError].  For a record of type ['pool'] the layer is the
    [Pool] built from the kernel, found in the same way, alone: its stride
    is the kernel.  In both cases the record is left holding these first
    values under the three full keys. *)
Theorem shortcut_precedence (config : record) (ty : string) :
  get config "type" (VStr "conv") = VStr ty →
  (lower ty = "conv" →
   create_layer_from_config config =
   (use_shortcuts config,
    match first_present ["kernel_size"; "kernel"; "k"] config with
    | None => Raise KeyError
    | Some kernel_size =>
      Conv_init Conv kernel_size
        (default (VInt 1) (first_present ["stride"; "s"] config))
        (default (VStr "same") (first_present ["padding"; "p"] config))
        (get config "name" VNone)
    end)) ∧
  (lower ty = "pool" →
   create_layer_from_config config =
   (use_shortcuts config,
    match first_present ["kernel_size"; "kernel"; "k"] config with
    | None => Raise KeyError
    | Some kernel_size => Pool_init kernel_size (get config "name" VNone)
    end)) ∧
  use_shortcuts config !! "kernel_size"
  = first_present ["kernel_size"; "kernel"; "k"] config ∧
  use_shortcuts config !! "stride" = first_present ["stride"; "s"] config ∧
  use_shortcuts config !! "padding" = first_present ["padding"; "p"] config ∧
  (∀ layer, (create_layer_from_config config).2 = Ok layer →
     ∃ p kernel_size,
       conv_params layer = Some p ∧
       first_present ["kernel_size"; "kernel"; "k"] config = Some kernel_size ∧
       kernel p = kernel_size ∧
       (lower ty = "conv" →
        stride p = default (VInt 1) (first_present ["stride"; "s"] config)) ∧
       (lower ty = "pool" → stride p = kernel_size ∧ _padding p = VStr "same")).
Proof.
  intros Hty.
  assert (get (use_shortcuts config) "name" VNone = get config "name" VNone)
    as Hname.
  { rewrite !get_default, use_shortcuts_other by discriminate. reflexivity. }
  assert (lower ty = "conv" →
          create_layer_from_config config =
          (use_shortcuts config,
           match first_present ["kernel_size"; "kernel"; "k"] config with
           | None => Raise KeyError
           | Some kernel_size =>
             Conv_init Conv kernel_size
               (default (VInt 1) (first_present ["stride"; "s"] config))
               (default (VStr "same") (first_present ["padding"; "p"] config))
               (get config "name" VNone)
           end)) as Hconv.
  { intros Hlower. unfold create_layer_from_config. rewrite Hty.
    unfold py_lower. cbv beta iota zeta. rewrite Hlower.
    destruct (decide ("conv" = "conv")) as [_ | Hne]; [| destruct (Hne eq_refl)].
    rewrite use_shortcuts_kernel_size, Hname.
    rewrite (get_default _ "stride"), (get_default _ "padding").
    rewrite use_shortcuts_stride, use_shortcuts_padding.
    destruct (first_present ["kernel_size"; "kernel"; "k"] config); reflexivity. }
  assert (lower ty = "pool" →
          create_layer_from_config config =
          (use_shortcuts config,
           match first_present ["kernel_size"; "kernel"; "k"] config with
           | None => Raise KeyError
           | Some kernel_size => Pool_init kernel_size (get config "name" VNone)
           end)) as Hpool.
  { intros Hlower. unfold create_layer_from_config. rewrite Hty.
    unfold py_lower. cbv beta iota zeta. rewrite Hlower.
    destruct (decide ("pool" = "conv")) as [Heq | _]; [discriminate Heq |].
    destruct (decide ("pool" = "pool")) as [_ | Hne]; [| destruct (Hne eq_refl)].
    rewrite use_shortcuts_kernel_size, Hname.
    destruct (first_present ["kernel_size"; "kernel"; "k"] config); reflexivity. }
  split; [exact Hconv |]. split; [exact Hpool |].
  split; [apply use_shortcuts_kernel_size |].
  split; [apply use_shortcuts_stride |].
  split; [apply use_shortcuts_padding |].
  intros layer Hlayer.
  destruct (create_layer_from_config config) as [config' res] eqn:Hcreate.
  simpl in Hlayer. subst res.
  destruct (create_layer_from_config_Ok_type _ _ _ Hcreate)
    as (ty' & Hty' & [Hlower | Hlower]);
    rewrite Hty in Hty'; injection Hty' as <-.
  - pose proof (Hconv Hlower) as Heq.
    destruct (first_present ["kernel_size"; "kernel"; "k"] config)
      as [kernel_size |]; [| discriminate].
    injection Heq as _ Hinit. symmetry in Hinit.
    destruct (Conv_init_Ok _ _ _ _ _ _ Hinit) as (p & Hcls & HK & HS & _).
    exists p, kernel_size. unfold conv_params. rewrite Hcls.
    split; [reflexivity |]. split; [reflexivity |]. split; [assumption |].
    split; [intros _; assumption |].
    intros Hpool'. rewrite Hlower in Hpool'. discriminate.
  - pose proof (Hpool Hlower) as Heq.
    destruct (first_present ["kernel_size"; "kernel"; "k"] config)
      as [kernel_size |]; [| discriminate].
    injection Heq as _ Hinit. symmetry in Hinit.
    unfold Pool_init, Conv_init in Hinit. simpl in Hinit.
    destruct (py_floordiv kernel_size (VInt 2)) as [half |]; [| discriminate].
    simpl in Hinit. injection Hinit as <-.
    eexists _, kernel_size. split; [reflexivity |].
    split; [reflexivity |]. split; [reflexivity |].
    split; [| intros _; split; reflexivity].
    intros Hconv'. rewrite Hlower in Hconv'. discriminate.
Qed.

Lemma shortcut_precedence_witness :
  (get both_kernels "type" (VStr "conv") = VStr "conv" ∧
   create_layer_from_config both_kernels
   = (use_shortcuts both_kernels,
      Conv_init Conv (VInt 5) (VInt 1) (VStr "same") VNone)) ∧
  (get abbreviated "type" (VStr "conv") = VStr "conv" ∧
   create_layer_from_config abbreviated
   = (use_shortcuts abbreviated,
      Conv_init Conv (VInt 3) (VInt 2) (VInt 0) VNone)) ∧
  (get pool2 "type" (VStr "conv") = VStr "Pool" ∧
   create_layer_from_config pool2
   = (use_shortcuts pool2, Pool_init (VInt 2) VNone)).
Proof.
  split; [split; [reflexivity |] | split; [split; [reflexivity |] | split; [reflexivity |]]].
  - exact (proj1 (shortcut_precedence both_kernels "conv" eq_refl) eq_refl).
  - exact (proj1 (shortcut_precedence abbreviated "conv" eq_refl) eq_refl).
  - exact (proj1 (proj2 (shortcut_precedence pool2 "Pool" eq_refl)) eq_refl).
Defined.

(** C9, as the specification states it, fails on the records of type
    ['pool']: the stride and the padding such a record gives are not those
    of the layer built from it. *)
Lemma pool_record_stride_counterexample :
  ∃ layer p,
    create_layer_from_config pool_with_stride
    = (use_shortcuts pool_with_stride, Ok layer) ∧
    conv_params layer = Some p ∧
    first_present ["stride"; "s"] pool_with_stride = Some (VInt 3) ∧
    stride p = VInt 2 ∧
    first_present ["padding"; "p"] pool_with_stride = Some (VInt 0) ∧
    padding p = VInt 1 ∧
    VInt 2 ≠ VInt 3 ∧ VInt 1 ≠ VInt 0.
Proof.
  eexists _, _. repeat (split; [reflexivity |]). split; discriminate.
Qed.

(** The generator hands each record to [create_layer_from_config]: what
    the caller's list holds afterwards is what that call left. *)
Lemma build_layers_from_config_record (config : record) (input_size : value) :
  (build_layers_from_config (ConfigList [config]) input_size).1
  = ConfigList [(create_layer_from_config config).1].
Proof.
  unfold build_layers_from_config. simpl.
  destruct (create_layer_from_config config) as [config' [layer | e]]; reflexivity.
Qed.

(** C10.  [create_layer_from_config] writes into the record it is given:
    for a record whose type is a [str] or absent, the record it leaves
    behind (the caller's, as the list [build_layers_from_config] was given
    shows) has under ['kernel_size'] the value of ['kernel'], else of
    ['k'], when it had no ['kernel_size']; under ['stride'] the value of
    ['s'] when it had no ['stride']; under ['padding'] the value of ['p']
    when it had no ['padding'].  Every other key and every key that was
    present keeps its value. *)
Theorem shortcuts_written_in_place (config : record) (ty : string)
    (input_size : value) :
  get config "type" (VStr "conv") = VStr ty →
  ∃ config',
    (create_layer_from_config config).1 = config' ∧
    (build_layers_from_config (ConfigList [config]) input_size).1
    = ConfigList [config'] ∧
    (config !! "kernel_size" = None →
     config' !! "kernel_size" = first_present ["kernel"; "k"] config) ∧
    (config !! "stride" = None → config' !! "stride" = config !! "s") ∧
    (config !! "padding" = None → config' !! "padding" = config !! "p") ∧
    (∀ key, key ≠ "kernel_size" → key ≠ "stride" → key ≠ "padding" →
       config' !! key = config !! key) ∧
    (∀ key v, config !! key = Some v → config' !! key = Some v).
Proof.
  intros Hty. exists (use_shortcuts config).
  split; [apply (create_layer_from_config_record config ty Hty) |].
  split.
  { rewrite build_layers_from_config_record.
    rewrite (create_layer_from_config_record config ty Hty). reflexivity. }
  split; [| split; [| split; [| split]]].
  - intros Hnone. rewrite use_shortcuts_kernel_size. simpl. rewrite Hnone.
    reflexivity.
  - intros Hnone. rewrite use_shortcuts_stride. simpl. rewrite Hnone.
    destruct (config !! "s"); reflexivity.
  - intros Hnone. rewrite use_shortcuts_padding. simpl. rewrite Hnone.
    destruct (config !! "p"); reflexivity.
  - apply use_shortcuts_other.
  - apply use_shortcuts_present.
Qed.

Lemma shortcuts_written_in_place_witness :
  get abbreviated "type" (VStr "conv") = VStr "conv" ∧
  abbreviated !! "kernel_size" = None ∧
  ∃ config',
    (create_layer_from_config abbreviated).1 = config' ∧
    (build_layers_from_config (ConfigList [abbreviated]) (VInt 10)).1
    = ConfigList [config'] ∧
    (abbreviated !! "kernel_size" = None →
     config' !! "kernel_size" = first_present ["kernel"; "k"] abbreviated) ∧
    (abbreviated !! "stride" = None → config' !! "stride" = abbreviated !! "s") ∧
    (abbreviated !! "padding" = None → config' !! "padding" = abbreviated !! "p") ∧
    (∀ key, key ≠ "kernel_size" → key ≠ "stride" → key ≠ "padding" →
       config' !! key = abbreviated !! key) ∧
    (∀ key v, abbreviated !! key = Some v → config' !! key = Some v).
Proof.
  split; [reflexivity |]. split; [reflexivity |].
  apply (shortcuts_written_in_place abbreviated "conv" (VInt 10)). reflexivity.
Defined.

(** * Further properties of the code *)

(** ** When [calculate] returns and when it raises *)

Lemma float_of_int_raises (z : Z) (e : exn) :
  float_of_int z = Raise e → e = OverflowError.
Proof.
  unfold float_of_int.
  destruct (binary_normalize prec emax z 0 false); intros [=]; congruence.
Qed.

Lemma calculate_output_size_ZeroDivisionError (p : ConvParams) (n : value) :
  calculate_output_size p n = Raise ZeroDivisionError ↔
  ∃ K P N, kernel p = VInt K ∧ padding p = VInt P ∧ n = VInt N ∧
           stride p = VInt 0.
Proof.
  split.
  - destruct p as [k pd st pol]. unfold calculate_output_size. simpl.
    destruct k as [| K |], pd as [| P |], n as [| N |], st as [| S |];
      simpl; try discriminate.
    destruct (decide (S = 0)) as [-> |]; simpl; [| discriminate].
    intros _. exists K, P, N. repeat split.
  - intros (K & P & N & HK & HP & -> & HS).
    apply (calculate_output_size_zero_stride p K 0 P HK HS HP N eq_refl).
Qed.

(** What [calculate] has found when it returns. *)
Lemma calculate_Ok_inv (self self' input_layer : Layer) :
  calculate self input_layer = (self', Ok tt) →
  ∃ p K S P N R J C x,
    conv_params self = Some p ∧
    kernel p = VInt K ∧ stride p = VInt S ∧ padding p = VInt P ∧ S ≠ 0 ∧
    derived input_layer = (VInt N, VInt R, Some C, VInt J) ∧
    float_of_int (((K - 1) / 2 - P) * J) = Ok x ∧
    self' = mkLayer (cls self) (name self)
              (VInt (K mod 2 + (N + 2 * P - K) / S)) (VInt (R + (K - 1) * J))
              (Some (float_add C x)) (VInt (J * S)).
Proof.
  unfold calculate. intros H.
  destruct (conv_params self) as [p |] eqn:Hp; [| discriminate].
  destruct (calculate_output_size p _) as [size |] eqn:Hsize; [| discriminate].
  apply calculate_output_size_Ok in Hsize
    as (K & S & P & N & HK & HS & HP & HN & HS0 & ->).
  unfold calculate_receptive_field_size, calculate_receptive_field_center,
    calculate_output_jump in H.
  rewrite HK, HS, HP in H. unfold derived. rewrite HN.
  destruct (jump input_layer) as [| J |];
    destruct (receptive_field_size input_layer) as [| R |];
    destruct (receptive_field_center input_layer) as [C |];
    simpl in H; try discriminate.
  destruct (float_of_int _) as [x |] eqn:Hx; simpl in H; [| discriminate].
  injection H as <-.
  exists p, K, S, P, N, R, J, C, x. repeat split; assumption.
Qed.

(** X1.  [calculate] returns exactly when the [Conv] attributes of [self]
    are [int]s with a stride that is not zero, the four derived attributes
    of the predecessor are numbers, and the shift of the center is an
    integer a float can hold; it then leaves [self] with the four values
    of the formulas, the class and the name as they were. *)
Theorem calculate_returns_iff (self self' input_layer : Layer) :
  calculate self input_layer = (self', Ok tt) ↔
  ∃ p K S P N R J C x,
    conv_params self = Some p ∧
    kernel p = VInt K ∧ stride p = VInt S ∧ padding p = VInt P ∧ S ≠ 0 ∧
    derived input_layer = (VInt N, VInt R, Some C, VInt J) ∧
    float_of_int (((K - 1) / 2 - P) * J) = Ok x ∧
    self' = mkLayer (cls self) (name self)
              (VInt (K mod 2 + (N + 2 * P - K) / S)) (VInt (R + (K - 1) * J))
              (Some (float_add C x)) (VInt (J * S)).
Proof.
  split.
  - apply calculate_Ok_inv.
  - intros (p & K & S & P & N & R & J & C & x
            & Hp & HK & HS & HP & HS0 & Hd & Hx & ->).
    apply (calculate_int self input_layer p K S P N R J C x); assumption.
Qed.

Lemma calculate_returns_iff_witness :
  calculate example_conv example_input
  = (mkLayer (cls example_conv) (name example_conv)
       (VInt (3 mod 2 + (10 + 2 * 1 - 3) / 1)) (VInt (1 + (3 - 1) * 1))
       (Some (float_add float_half (S754_zero false))) (VInt (1 * 1)), Ok tt).
Proof.
  apply (proj2 (calculate_returns_iff example_conv _ example_input)).
  exists example_params, 3, 1, 1, 10, 1, 1, float_half, (S754_zero false).
  repeat split. lia.
Defined.

(** X2.  [calculate] raises [ZeroDivisionError] exactly when the stride is
    the [int] zero and the kernel, the padding and the predecessor's
    output size are [int]s; it has then assigned nothing to [self]. *)
Theorem calculate_ZeroDivisionError_iff (self self' input_layer : Layer) :
  calculate self input_layer = (self', Raise ZeroDivisionError) ↔
  self' = self ∧
  ∃ p K P N, conv_params self = Some p ∧
    kernel p = VInt K ∧ padding p = VInt P ∧ stride p = VInt 0 ∧
    output_size input_layer = VInt N.
Proof.
  split.
  - unfold calculate. intros H.
    destruct (conv_params self) as [p |] eqn:Hp; [| discriminate].
    destruct (calculate_output_size p _) as [size |] eqn:Hsize.
    + exfalso.
      apply calculate_output_size_Ok in Hsize
        as (K & S & P & N & HK & HS & HP & HN & HS0 & ->).
      unfold calculate_receptive_field_size, calculate_receptive_field_center,
        calculate_output_jump in H.
      rewrite HK, HS, HP in H.
      destruct (jump input_layer) as [| J |];
        destruct (receptive_field_size input_layer) as [| R |];
        destruct (receptive_field_center input_layer) as [C |];
        simpl in H; try discriminate.
      destruct (float_of_int _) as [x |] eqn:Hx; simpl in H; [discriminate |].
      apply float_of_int_raises in Hx. congruence.
    + injection H as <- ->. split; [reflexivity |].
      apply calculate_output_size_ZeroDivisionError in Hsize
        as (K & P & N & HK & HP & HN & HS).
      exists p, K, P, N. repeat split; assumption.
  - intros (-> & p & K & P & N & Hp & HK & HP & HS & HN).
    unfold calculate. rewrite Hp, HN.
    rewrite (calculate_output_size_zero_stride p K 0 P HK HS HP N eq_refl).
    reflexivity.
Qed.

Lemma calculate_ZeroDivisionError_iff_witness :
  calculate (Layer_init (Conv (mkConvParams (VInt 3) (VInt 1) (VInt 0) VNone)) VNone)
    example_input
  = (Layer_init (Conv (mkConvParams (VInt 3) (VInt 1) (VInt 0) VNone)) VNone,
     Raise ZeroDivisionError).
Proof.
  apply (proj2 (calculate_ZeroDivisionError_iff _ _ example_input)).
  split; [reflexivity |].
  exists (mkConvParams (VInt 3) (VInt 1) (VInt 0) VNone), 3, 1, 10.
  repeat split.
Defined.

(** X3.  A [calculate] that raises has assigned neither
    [receptive_field_center] nor [jump], and has kept the class and the
    name: once the center is computed nothing can fail any more. *)
Theorem failed_calculate_keeps_center_and_jump
    (self self' input_layer : Layer) (e : exn) :
  calculate self input_layer = (self', Raise e) →
  receptive_field_center self' = receptive_field_center self ∧
  jump self' = jump self ∧ cls self' = cls self ∧ name self' = name self.
Proof.
  unfold calculate. intros H.
  destruct (conv_params self) as [p |] eqn:Hp;
    [| injection H as <- _; repeat split].
  destruct (calculate_output_size p _) as [size |] eqn:Hsize;
    [| injection H as <- _; repeat split].
  destruct (calculate_receptive_field_size p _ _) as [field |];
    [| injection H as <- _; repeat split].
  destruct (calculate_receptive_field_center p _ _) as [center |] eqn:Hcenter;
    [| injection H as <- _; repeat split].
  exfalso.
  apply calculate_output_size_Ok in Hsize
    as (K & S & P & N & HK & HS & HP & HN & HS0 & ->).
  unfold calculate_receptive_field_center, calculate_output_jump in *.
  rewrite HK, HP in Hcenter. rewrite HS in H.
  destruct (jump input_layer) as [| J |];
    destruct (receptive_field_center input_layer) as [C |];
    simpl in *; discriminate.
Qed.

Lemma failed_calculate_keeps_center_and_jump_witness :
  calculate example_conv (Input_init VNone VNone) = (example_conv, Raise TypeError) ∧
  receptive_field_center example_conv = receptive_field_center example_conv ∧
  jump example_conv = jump example_conv ∧ cls example_conv = cls example_conv ∧
  name example_conv = name example_conv.
Proof.
  split; [reflexivity |].
  apply (failed_calculate_keeps_center_and_jump
           example_conv example_conv (Input_init VNone VNone) TypeError).
  reflexivity.
Defined.

(** ** Output sizes of the usual layers *)

(** X4.  A [Conv] with stride 1 and the padding ['same'], the defaults of
    the constructor, keeps the size of its input, whatever the [int]
    kernel is: the parity term makes up for the padding of an even
    kernel. *)
Theorem same_padding_keeps_size (K N : Z) (nm : value) :
  ∃ self p,
    Conv_init Conv (VInt K) (VInt 1) (VStr "same") nm = Ok self ∧
    conv_params self = Some p ∧
    calculate_output_size p (VInt N) = Ok (VInt N).
Proof.
  eexists _, _. split; [reflexivity |]. split; [reflexivity |].
  rewrite (calculate_output_size_int _ K 1 (K / 2)) by (reflexivity || lia).
  do 2 f_equal. rewrite Z.div_1_r.
  pose proof (Z.div_mod K 2 ltac:(lia)). lia.
Qed.

(** X5.  The output size of [Pool(size)] on an input of size [N]: the
    quotient [N // size] rounded down for an even size, and
    [1 + (N - 1) // size], the quotient rounded up, for an odd size. *)
Theorem Pool_output_size (size N : Z) (nm : value) :
  size ≠ 0 →
  ∃ self p,
    Pool_init (VInt size) nm = Ok self ∧
    conv_params self = Some p ∧
    calculate_output_size p (VInt N)
    = Ok (VInt (if Z.even size then N / size else 1 + (N - 1) / size)).
Proof.
  intros Hsize. eexists _, _. split; [reflexivity |]. split; [reflexivity |].
  rewrite (calculate_output_size_int _ size size (size / 2))
    by (reflexivity || assumption).
  do 2 f_equal.
  pose proof (Z.div_mod size 2 ltac:(lia)) as Hdm.
  rewrite Zmod_even in *.
  destruct (Z.even size).
  - replace (N + 2 * (size / 2) - size) with N by lia. lia.
  - replace (N + 2 * (size / 2) - size) with (N - 1) by lia. reflexivity.
Qed.

Lemma Pool_output_size_witness :
  3 ≠ 0 ∧
  ∃ self p,
    Pool_init (VInt 3) VNone = Ok self ∧
    conv_params self = Some p ∧
    calculate_output_size p (VInt 10)
    = Ok (VInt (if Z.even 3 then 10 / 3 else 1 + (10 - 1) / 3)).
Proof.
  split; [lia |]. apply (Pool_output_size 3 10 VNone). lia.
Defined.

(** ** The loop of [main], further *)

Lemma calculate_each_prefixes (layers layers' : store) (k : nat) :
  calculate_each layers 0 (seq 1 k) = (layers', Ok tt) →
  ∀ n, (n ≤ k)%nat →
    ∃ layers_n, calculate_each layers 0 (seq 1 n) = (layers_n, Ok tt).
Proof.
  revert layers'. induction k as [| k IH]; intros layers' Hrun n Hn.
  - assert (n = 0%nat) as -> by lia. eauto.
  - destruct (decide (n = S k)) as [-> | Hne]; [eauto |].
    destruct (calculate_each_prefix_Ok _ _ _ Hrun) as [layers_k Hk].
    apply (IH layers_k Hk). lia.
Qed.

(** What an iteration that returned has found and assigned. *)
Lemma calculate_each_step_Ok (layers layers' : store) (k : nat) :
  calculate_each layers 0 (seq 1 (S k)) = (layers', Ok tt) →
  ∃ layers_k self self' input_layer,
    calculate_each layers 0 (seq 1 k) = (layers_k, Ok tt) ∧
    layers_k !! S k = Some self ∧ layers !! S k = Some self ∧
    layers_k !! k = Some input_layer ∧
    calculate self input_layer = (self', Ok tt) ∧
    layers' = <[S k := self']> layers_k ∧
    (S k < length layers_k)%nat.
Proof.
  intros Hrun.
  destruct (calculate_each_prefix_Ok _ _ _ Hrun) as [layers_k Hk].
  rewrite (calculate_each_step _ _ _ Hk) in Hrun.
  destruct (layers_k !! S k) as [self |] eqn:Hself; [| discriminate].
  destruct (layers_k !! k) as [input_layer |] eqn:Hinput; [| discriminate].
  destruct (calculate self input_layer) as [self' r] eqn:Hcalc.
  simpl in Hrun. injection Hrun as <- ->.
  exists layers_k, self, self', input_layer.
  repeat split; try assumption; try reflexivity.
  - rewrite <- Hself. change layers_k with (layers_k, @Ok unit tt).1.
    rewrite <- Hk. symmetry. apply calculate_each_frame.
    rewrite elem_of_seq. lia.
  - apply lookup_lt_is_Some. eauto.
Qed.

Lemma populated_invariant (layers layers' : store) (k : nat) :
  calculate_each layers 0 (seq 1 k) = (layers', Ok tt) →
  ∀ i l, (1 ≤ i ≤ k)%nat → layers' !! i = Some l → populated l.
Proof.
  revert layers'. induction k as [| k IH]; intros layers' Hrun i l Hi Hl; [lia |].
  destruct (calculate_each_step_Ok _ _ _ Hrun)
    as (layers_k & self & self' & input_layer & Hk & Hself & _ & Hinput
        & Hcalc & -> & Hlen).
  destruct (decide (i = S k)) as [-> | Hne].
  - rewrite list_lookup_insert_eq in Hl by assumption. injection Hl as <-.
    apply calculate_Ok_inv in Hcalc
      as (p & K & S & P & N & R & J & C & x & _ & _ & _ & _ & _ & _ & _ & ->).
    unfold populated, derived. simpl. eauto.
  - rewrite list_lookup_insert_ne in Hl by lia.
    apply (IH layers_k Hk i l); [lia | assumption].
Qed.

Lemma calculate_layers_Ok_inv (first : Layer) (rest layers' : store) :
  calculate_layers (first :: rest) = (layers', Ok tt) →
  length layers' = S (length rest) ∧
  layers' !! 0%nat = Some first ∧
  cls <$> layers' = cls <$> (first :: rest) ∧
  (∀ i l, (1 ≤ i)%nat → layers' !! i = Some l → populated l) ∧
  (rest ≠ [] → populated first).
Proof.
  rewrite calculate_layers_unfold. intros Hrun.
  assert (length layers' = S (length rest)) as Hlen.
  { change layers' with (layers', @Ok unit tt).1. rewrite <- Hrun.
    apply calculate_each_length. }
  split; [assumption |]. split; [| split; [| split]].
  - change layers' with (layers', @Ok unit tt).1. rewrite <- Hrun.
    rewrite calculate_each_frame; [reflexivity |]. rewrite elem_of_seq. lia.
  - change layers' with (layers', @Ok unit tt).1. rewrite <- Hrun.
    apply calculate_each_class.
  - intros i l Hi Hl. apply (populated_invariant _ _ _ Hrun i l); [| assumption].
    assert (i < length layers')%nat by (apply lookup_lt_is_Some; eauto). lia.
  - intros Hrest.
    destruct rest as [| second rest]; [contradiction |].
    destruct (calculate_each_prefixes _ _ _ Hrun 1%nat ltac:(simpl; lia))
      as [layers_1 H1].
    destruct (calculate_each_step_Ok _ _ 0 H1)
      as (layers_0 & self & self' & input_layer & H0 & _ & _ & Hinput
          & Hcalc & _ & _).
    simpl in H0. injection H0 as <-. simpl in Hinput. injection Hinput as <-.
    apply calculate_Ok_inv in Hcalc
      as (p & K & S & P & N & R & J & C & x & _ & _ & _ & _ & _ & Hd & _ & _).
    unfold populated. eauto.
Qed.

(** X6.  When the loop of [main] returns, the list has the length it had,
    the first layer is as it was given, the classes are unchanged, and
    every layer after the first holds a number in each of its four derived
    attributes; so does the first, when it has a successor. *)
Theorem loop_populates (first : Layer) (rest layers' : store) :
  calculate_layers (first :: rest) = (layers', Ok tt) →
  length layers' = S (length rest) ∧
  layers' !! 0%nat = Some first ∧
  cls <$> layers' = cls <$> (first :: rest) ∧
  (∀ i l, (1 ≤ i)%nat → layers' !! i = Some l → populated l) ∧
  (rest ≠ [] → populated first).
Proof. apply calculate_layers_Ok_inv. Qed.

Lemma loop_populates_witness :
  calculate_layers (example_input :: [example_conv; example_pool])
  = ((calculate_layers example_chain).1, Ok tt) ∧
  length (calculate_layers example_chain).1 = S (length [example_conv; example_pool]) ∧
  (calculate_layers example_chain).1 !! 0%nat = Some example_input ∧
  cls <$> (calculate_layers example_chain).1
  = cls <$> (example_input :: [example_conv; example_pool]) ∧
  (∀ i l, (1 ≤ i)%nat → (calculate_layers example_chain).1 !! i = Some l → populated l) ∧
  ([example_conv; example_pool] ≠ [] → populated example_input).
Proof.
  split; [reflexivity |].
  apply (loop_populates example_input [example_conv; example_pool]).
  reflexivity.
Defined.

(** ** The receptive field along a chain *)

Lemma foldr_add_last (a : Z) (l : list Z) :
  foldr Z.add a l = foldr Z.add 0 l + a.
Proof. induction l as [| x l IH]; simpl; [lia | rewrite IH; lia]. Qed.

Lemma receptive_field_formula_S (layers : store) (k : nat) :
  receptive_field_formula layers (S k)
  = receptive_field_formula layers k
    + (kernel_at layers (S k) - 1) * stride_product layers k.
Proof.
  unfold receptive_field_formula.
  rewrite seq_S, fmap_app, foldr_app. simpl.
  rewrite Nat.sub_0_r, (foldr_add_last (_ + 0)). lia.
Qed.

Lemma kernel_at_lookup (layers : store) (j : nat) (self : Layer)
    (p : ConvParams) (K : Z) :
  layers !! j = Some self → conv_params self = Some p → kernel p = VInt K →
  kernel_at layers j = K.
Proof.
  intros Hself Hp HK. unfold kernel_at, kernel_int.
  rewrite Hself. simpl. rewrite Hp, HK. reflexivity.
Qed.

Lemma field_invariant (layers : store) (first : Layer) (k : nat) :
  layers !! 0%nat = Some first →
  jump first = VInt 1 → stride_int first = None →
  receptive_field_size first = VInt 1 →
  ∀ layers',
    calculate_each layers 0 (seq 1 k) = (layers', Ok tt) →
    ∀ i, (i ≤ k)%nat →
      ∃ l, layers' !! i = Some l ∧
           receptive_field_size l = VInt (receptive_field_formula layers i).
Proof.
  intros Hfirst Hjump Hstride Hfield.
  induction k as [| k IH]; intros layers' Hrun i Hi.
  - simpl in Hrun. injection Hrun as <-.
    assert (i = 0%nat) as -> by lia.
    exists first. split; [assumption |]. rewrite Hfield. reflexivity.
  - destruct (calculate_each_step_Ok _ _ _ Hrun)
      as (layers_k & self & self' & input_layer & Hk & _ & Hself & Hinput
          & Hcalc & -> & Hlen).
    destruct (decide (i = S k)) as [-> | Hne].
    + exists self'. split; [apply list_lookup_insert_eq; assumption |].
      destruct (IH layers_k Hk k (le_n k)) as (l & Hl & HR).
      rewrite Hinput in Hl. injection Hl as <-.
      destruct (jump_invariant layers first k Hfirst Hjump Hstride
                  layers_k Hk k (le_n k)) as (l & Hl & HJ).
      rewrite Hinput in Hl. injection Hl as <-.
      apply calculate_Ok_inv in Hcalc
        as (p & K & s & P & N & R & J & C & x & Hp & HK & _ & _ & _ & Hd & _ & ->).
      unfold derived in Hd. injection Hd as _ HR' _ HJ'. simpl.
      rewrite receptive_field_formula_S.
      rewrite (kernel_at_lookup layers (S k) self p K Hself Hp HK).
      rewrite (stride_product_class layers layers_k k).
      * congruence.
      * change layers_k with (layers_k, @Ok unit tt).1. rewrite <- Hk.
        symmetry. apply calculate_each_class.
    + destruct (IH layers_k Hk i ltac:(lia)) as (l & Hl & HR).
      exists l. split; [| assumption].
      rewrite list_lookup_insert_ne by lia. assumption.
Qed.

(** X7.  In a chain that starts with an [Input], after [k] iterations of
    the loop that returned, the receptive field size of the layer at each
    position [i] up to [k] is [1] plus the sum, over the layers from the
    second to that one, of the kernel less one times the product of the
    strides of the layers before it. *)
Theorem receptive_field_closed_form
    (size nm : value) (rest layers' : store) (k : nat) :
  calculate_each (Input_init size nm :: rest) 0 (seq 1 k) = (layers', Ok tt) →
  ∀ i, (i ≤ k)%nat →
    ∃ l, layers' !! i = Some l ∧
         receptive_field_size l
         = VInt (receptive_field_formula (Input_init size nm :: rest) i).
Proof.
  intros Hrun.
  apply (field_invariant (Input_init size nm :: rest) (Input_init size nm) k
           eq_refl eq_refl eq_refl eq_refl layers' Hrun).
Qed.

Lemma receptive_field_closed_form_witness :
  calculate_each (Input_init (VInt 10) VNone :: [example_conv; example_pool]) 0 (seq 1 2)
  = ((calculate_layers example_chain).1, Ok tt) ∧
  ∀ i, (i ≤ 2)%nat →
    ∃ l, (calculate_layers example_chain).1 !! i = Some l ∧
         receptive_field_size l
         = VInt (receptive_field_formula
                   (Input_init (VInt 10) VNone :: [example_conv; example_pool]) i).
Proof.
  split; [reflexivity |].
  apply (receptive_field_closed_form (VInt 10) VNone [example_conv; example_pool]
           (calculate_layers example_chain).1 2).
  reflexivity.
Defined.

Example receptive_field_formula_example :
  receptive_field_formula example_chain 2 = 4.
Proof. reflexivity. Qed.

(** X8.  With kernels and strides of at least one, in a chain that starts
    with an [Input]: after [k] iterations that returned, every layer up to
    position [k] has a receptive field size and a jump of at least one,
    and from a layer to the next neither of the two decreases. *)
Theorem field_and_jump_grow
    (size nm : value) (rest layers' : store) (k : nat) :
  calculate_each (Input_init size nm :: rest) 0 (seq 1 k) = (layers', Ok tt) →
  Forall positive_params rest →
  (∀ i l, (i ≤ k)%nat → layers' !! i = Some l →
     ∃ r j, receptive_field_size l = VInt r ∧ jump l = VInt j ∧ (1 ≤ r)%Z ∧ (1 ≤ j)%Z) ∧
  (∀ i l l', (S i ≤ k)%nat → layers' !! i = Some l → layers' !! S i = Some l' →
     ∃ r r' j j',
       receptive_field_size l = VInt r ∧ receptive_field_size l' = VInt r' ∧
       jump l = VInt j ∧ jump l' = VInt j' ∧ (r ≤ r')%Z ∧ (j ≤ j')%Z).
Proof.
  intros Hrun Hpos. revert layers' Hrun.
  induction k as [| k IH]; intros layers' Hrun.
  - simpl in Hrun. injection Hrun as <-. split.
    + intros i l Hi Hl. assert (i = 0%nat) as -> by lia.
      simpl in Hl. injection Hl as <-. exists 1, 1. repeat split; lia.
    + intros i l l' Hi. lia.
  - destruct (calculate_each_step_Ok _ _ _ Hrun)
      as (layers_k & self & self' & input_layer & Hk & _ & Hself & Hinput
          & Hcalc & -> & Hlen).
    destruct (IH layers_k Hk) as [IH1 IH2].
    destruct (IH1 k input_layer (le_n k) Hinput) as (r & j & Hr & Hj & Hr1 & Hj1).
    apply calculate_Ok_inv in Hcalc
      as (p & K & s & P & N & R & J & C & x & Hp & HK & HS & _ & _ & Hd & _ & ->).
    unfold derived in Hd. injection Hd as _ HR _ HJ.
    assert (R = r) as -> by congruence. assert (J = j) as -> by congruence.
    simpl in Hself.
    destruct (proj1 (Forall_lookup _ _) Hpos k self Hself p K s Hp HK HS)
      as [HK1 HS1].
    split.
    + intros i l Hi Hl. destruct (decide (i = S k)) as [-> | Hne].
      * rewrite list_lookup_insert_eq in Hl by assumption. injection Hl as <-.
        simpl. exists (r + (K - 1) * j), (j * s). repeat split; nia.
      * rewrite list_lookup_insert_ne in Hl by lia.
        apply (IH1 i l); [lia | assumption].
    + intros i l l' Hi Hl Hl'. destruct (decide (i = k)) as [-> | Hne].
      * rewrite list_lookup_insert_ne in Hl by lia.
        rewrite list_lookup_insert_eq in Hl' by assumption.
        rewrite Hinput in Hl. injection Hl as <-. injection Hl' as <-.
        simpl. exists r, (r + (K - 1) * j), j, (j * s).
        repeat split; try assumption; nia.
      * rewrite list_lookup_insert_ne in Hl by lia.
        rewrite list_lookup_insert_ne in Hl' by lia.
        apply (IH2 i l l'); [lia | assumption | assumption].
Qed.

Lemma field_and_jump_grow_witness :
  (calculate_each (Input_init (VInt 10) VNone :: [example_conv; example_pool]) 0 (seq 1 2)
   = ((calculate_layers example_chain).1, Ok tt) ∧
   Forall positive_params [example_conv; example_pool]) ∧
  (∀ i l, (i ≤ 2)%nat → (calculate_layers example_chain).1 !! i = Some l →
     ∃ r j, receptive_field_size l = VInt r ∧ jump l = VInt j ∧ (1 ≤ r)%Z ∧ (1 ≤ j)%Z) ∧
  (∀ i l l', (S i ≤ 2)%nat → (calculate_layers example_chain).1 !! i = Some l →
     (calculate_layers example_chain).1 !! S i = Some l' →
     ∃ r r' j j',
       receptive_field_size l = VInt r ∧ receptive_field_size l' = VInt r' ∧
       jump l = VInt j ∧ jump l' = VInt j' ∧ (r ≤ r')%Z ∧ (j ≤ j')%Z).
Proof.
  assert (Forall positive_params [example_conv; example_pool]) as Hpos.
  { constructor; [| constructor; [| constructor]];
      intros p K s Hp HK Hs; vm_compute in Hp; injection Hp as <-;
      vm_compute in HK, Hs; injection HK as <-; injection Hs as <-; lia. }
  split; [split; [reflexivity | exact Hpos] |].
  apply (field_and_jump_grow (VInt 10) VNone [example_conv; example_pool]
           (calculate_layers example_chain).1 2 eq_refl Hpos).
Defined.

(** ** Layers from configuration records *)

Lemma Conv_init_fresh (mk : ConvParams → LayerClass) (k s pad nm : value)
    (self : Layer) :
  (∀ p, mk p = Conv p) ∨ (∀ p, mk p = Pool p) →
  Conv_init mk k s pad nm = Ok self → fresh self.
Proof.
  intros Hmk Hinit. split.
  - destruct (Conv_init_Ok _ _ _ _ _ _ Hinit) as (p & Hcls & _).
    unfold conv_params. rewrite Hcls.
    destruct Hmk as [-> | ->]; discriminate.
  - apply (Conv_init_derived _ _ _ _ _ _ Hinit).
Qed.

(** A record from which a layer is built: the record is left with the
    shortcuts written, and the layer is a fresh [Conv] or [Pool]. *)
Lemma create_layer_from_config_Ok (config config' : record) (layer : Layer) :
  create_layer_from_config config = (config', Ok layer) →
  config' = use_shortcuts config ∧ fresh layer.
Proof.
  intros Hcreate.
  destruct (create_layer_from_config_Ok_type _ _ _ Hcreate) as (ty & Hty & _).
  pose proof (create_layer_from_config_record config ty Hty) as Hrec.
  rewrite Hcreate in Hrec. simpl in Hrec. split; [assumption |].
  unfold create_layer_from_config in Hcreate. rewrite Hty in Hcreate.
  simpl in Hcreate.
  destruct (use_shortcuts config !! "kernel_size") as [k |];
    [| repeat case_decide; discriminate].
  destruct (decide (lower ty = "conv")).
  - injection Hcreate as _ Hinit.
    apply (Conv_init_fresh Conv _ _ _ _ _ (or_introl (λ p, eq_refl)) Hinit).
  - destruct (decide (lower ty = "pool")); [| discriminate].
    injection Hcreate as _ Hinit. unfold Pool_init in Hinit.
    apply (Conv_init_fresh Pool _ _ _ _ _ (or_intror (λ p, eq_refl)) Hinit).
Qed.

Lemma create_layers_Ok (config config' : list record) (layers : list Layer) :
  create_layers config = (config', Ok layers) →
  length layers = length config ∧
  config' = use_shortcuts <$> config ∧
  Forall fresh layers ∧
  Forall2 (λ r l, (create_layer_from_config r).2 = Ok l) config layers.
Proof.
  revert config' layers.
  induction config as [| r config IH]; intros config' layers; simpl.
  - intros [= <- <-]. repeat split; constructor.
  - destruct (create_layer_from_config r) as [r' [l | e]] eqn:Hr; [| discriminate].
    destruct (create_layers config) as [rest' [ls | e]]; simpl; [| discriminate].
    intros [= <- <-].
    destruct (create_layer_from_config_Ok _ _ _ Hr) as [-> Hfresh].
    destruct (IH rest' ls eq_refl) as (Hlen & -> & Hall & Hrel).
    simpl. rewrite Hlen. repeat split; constructor; try assumption.
    rewrite Hr. reflexivity.
Qed.

Lemma build_layers_from_config_Ok (config config' : Config)
    (input_size : value) (layers : list Layer) :
  build_layers_from_config config input_size = (config', Ok layers) →
  ∃ rest,
    layers = Input_init (config_input_size config input_size) VNone :: rest ∧
    length rest = length (config_records config) ∧
    Forall fresh rest ∧
    Forall2 (λ r l, (create_layer_from_config r).2 = Ok l)
      (config_records config) rest ∧
    config_records config' = use_shortcuts <$> config_records config.
Proof.
  unfold build_layers_from_config.
  destruct config as [records | size [records |]]; simpl.
  - destruct (create_layers records) as [records' [ls | e]] eqn:Hcreate;
      simpl; [| discriminate].
    intros [= <- <-].
    destruct (create_layers_Ok _ _ _ Hcreate) as (Hlen & -> & Hall & Hrel).
    exists ls. repeat split; assumption.
  - destruct (create_layers records) as [records' [ls | e]] eqn:Hcreate;
      simpl; [| discriminate].
    intros [= <- <-].
    destruct (create_layers_Ok _ _ _ Hcreate) as (Hlen & -> & Hall & Hrel).
    exists ls. repeat split; assumption.
  - intros [= <- <-]. exists []. repeat split; constructor.
Qed.

(** X9.  When [build_layers_from_config] returns, the list is an [Input]
    followed by one fresh [Conv] or [Pool] per layer record, in the order
    of the records, each the layer [create_layer_from_config] builds from
    its record.  The size of the [Input] is the ['input_size'] of a
    [dict] configuration that has the key, even when its value is [None],
    and the size of the command line otherwise.  Every record of the
    configuration is left with its shortcuts written. *)
Theorem build_layers_from_config_shape (config config' : Config)
    (input_size : value) (layers : list Layer) :
  build_layers_from_config config input_size = (config', Ok layers) →
  ∃ rest,
    layers = Input_init (config_input_size config input_size) VNone :: rest ∧
    length rest = length (config_records config) ∧
    Forall fresh rest ∧
    Forall2 (λ r l, (create_layer_from_config r).2 = Ok l)
      (config_records config) rest ∧
    config_records config' = use_shortcuts <$> config_records config.
Proof. apply build_layers_from_config_Ok. Qed.

Lemma build_layers_from_config_shape_witness :
  ∃ config' layers,
    build_layers_from_config (ConfigDict (Some VNone) (Some [conv3; pool2])) (VInt 10)
    = (config', Ok layers) ∧
    ∃ rest,
      layers = Input_init VNone VNone :: rest ∧
      length rest = 2%nat ∧
      Forall fresh rest ∧
      Forall2 (λ r l, (create_layer_from_config r).2 = Ok l) [conv3; pool2] rest ∧
      config_records config' = use_shortcuts <$> [conv3; pool2].
Proof.
  eexists _, _. split; [reflexivity |].
  apply (build_layers_from_config_shape
           (ConfigDict (Some VNone) (Some [conv3; pool2])) _ (VInt 10)).
  reflexivity.
Defined.

(** X10.  The records are turned into layers one after the other, and the
    first record that makes [create_layer_from_config] raise ends it: the
    exception is that record's, the records before it are left with their
    shortcuts written, the failing record as its call left it, and the
    records after it are not touched. *)
Theorem create_layers_stops_at_first_failure
    (before after : list record) (bad bad' : record)
    (before' : list record) (layers : list Layer) (e : exn) :
  create_layers before = (before', Ok layers) →
  create_layer_from_config bad = (bad', Raise e) →
  create_layers (before ++ bad :: after)%list
  = ((before' ++ bad' :: after)%list, Raise e).
Proof.
  revert before' layers.
  induction before as [| r before IH]; intros before' layers Hbefore Hbad; simpl in *.
  - injection Hbefore as <- _. rewrite Hbad. reflexivity.
  - destruct (create_layer_from_config r) as [r' [l | e']]; [| discriminate].
    destruct (create_layers before) as [rest' [ls | e']] eqn:Hrest;
      simpl in Hbefore; [| discriminate].
    injection Hbefore as <- _.
    rewrite (IH rest' ls eq_refl Hbad). reflexivity.
Qed.

Lemma create_layers_stops_at_first_failure_witness :
  (create_layers [abbreviated] = ([use_shortcuts abbreviated], Ok [(Layer_init (Conv (mkConvParams (VInt 3) (VInt 0) (VInt 2) VNone)) VNone)]) ∧
   create_layer_from_config dense = (use_shortcuts dense, Raise UnboundLocalError)) ∧
  create_layers ([abbreviated] ++ dense :: [both_kernels])%list
  = (([use_shortcuts abbreviated] ++ use_shortcuts dense :: [both_kernels])%list,
     Raise UnboundLocalError).
Proof.
  split; [split; reflexivity |].
  apply (create_layers_stops_at_first_failure [abbreviated] [both_kernels] dense
           (use_shortcuts dense) [use_shortcuts abbreviated]
           [Layer_init (Conv (mkConvParams (VInt 3) (VInt 0) (VInt 2) VNone)) VNone]
           UnboundLocalError); reflexivity.
Defined.

(** X11.  A record of type ['conv'] or ['pool'] with none of the keys
    ['kernel_size'], ['kernel'], ['k']: [create_layer_from_config] raises
    [KeyError], after it has written the stride and padding shortcuts. *)
Theorem missing_kernel_raises (config : record) (ty : string) :
  get config "type" (VStr "conv") = VStr ty →
  lower ty = "conv" ∨ lower ty = "pool" →
  first_present ["kernel_size"; "kernel"; "k"] config = None →
  create_layer_from_config config = (use_shortcuts config, Raise KeyError).
Proof.
  intros Hty Hknown Hnone. unfold create_layer_from_config. rewrite Hty. simpl.
  rewrite use_shortcuts_kernel_size, Hnone.
  destruct (decide (lower ty = "conv")); [reflexivity |].
  destruct (decide (lower ty = "pool")); [reflexivity | tauto].
Qed.

Lemma missing_kernel_raises_witness :
  (get {[ "s" := VInt 2 ]} "type" (VStr "conv") = VStr "conv" ∧
   first_present ["kernel_size"; "kernel"; "k"] {[ "s" := VInt 2 ]} = None) ∧
  create_layer_from_config {[ "s" := VInt 2 ]}
  = (use_shortcuts {[ "s" := VInt 2 ]}, Raise KeyError).
Proof.
  split; [split; reflexivity |].
  apply (missing_kernel_raises {[ "s" := VInt 2 ]} "conv");
    [reflexivity | left; reflexivity | reflexivity].
Defined.

Lemma type_not_str_raises_any (config : record) :
  (∀ ty, get config "type" (VStr "conv") ≠ VStr ty) →
  create_layer_from_config config = (config, Raise AttributeError).
Proof.
  intros Hty. unfold create_layer_from_config.
  destruct (get config "type" (VStr "conv")) as [| z | ty]; try reflexivity.
  destruct (Hty ty eq_refl).
Qed.

(** X12.  A record whose ['type'] is not a [str]: the call of [lower]
    raises [AttributeError] before anything is written to the record. *)
Theorem type_not_str_raises (config : record) :
  (∀ ty, get config "type" (VStr "conv") ≠ VStr ty) →
  create_layer_from_config config = (config, Raise AttributeError).
Proof. apply type_not_str_raises_any. Qed.

Lemma type_not_str_raises_witness :
  (∀ ty, get {[ "type" := VInt 7; "k" := VInt 3 ]} "type" (VStr "conv") ≠ VStr ty) ∧
  create_layer_from_config {[ "type" := VInt 7; "k" := VInt 3 ]}
  = ({[ "type" := VInt 7; "k" := VInt 3 ]}, Raise AttributeError).
Proof.
  assert (∀ ty, get {[ "type" := VInt 7; "k" := VInt 3 ]} "type" (VStr "conv") ≠ VStr ty)
    as Hty by (intros ty; vm_compute; discriminate).
  split; [exact Hty |].
  apply (type_not_str_raises {[ "type" := VInt 7; "k" := VInt 3 ]} Hty).
Defined.

Lemma get_use_shortcuts_other (config : record) (key : string) (d : value) :
  key ≠ "kernel_size" → key ≠ "stride" → key ≠ "padding" →
  get (use_shortcuts config) key d = get config key d.
Proof.
  intros Hk Hs Hp. rewrite !get_default, use_shortcuts_other by assumption.
  reflexivity.
Qed.

(** What [create_layer_from_config] returns or raises, from what the
    caller's record holds. *)
Lemma create_layer_from_config_result (config : record) :
  (create_layer_from_config config).2 =
  match py_lower (get config "type" (VStr "conv")) with
  | Raise e => Raise e
  | Ok layer_type =>
    if decide (layer_type = "conv") then
      match first_present ["kernel_size"; "kernel"; "k"] config with
      | None => Raise KeyError
      | Some kernel_size =>
        Conv_init Conv kernel_size
          (default (VInt 1) (first_present ["stride"; "s"] config))
          (default (VStr "same") (first_present ["padding"; "p"] config))
          (get config "name" VNone)
      end
    else if decide (layer_type = "pool") then
      match first_present ["kernel_size"; "kernel"; "k"] config with
      | None => Raise KeyError
      | Some kernel_size => Pool_init kernel_size (get config "name" VNone)
      end
    else Raise UnboundLocalError
  end.
Proof.
  unfold create_layer_from_config.
  destruct (py_lower _) as [layer_type | e]; [| reflexivity]. cbv zeta.
  rewrite use_shortcuts_kernel_size.
  rewrite (get_default _ "stride"), (get_default _ "padding").
  rewrite use_shortcuts_stride, use_shortcuts_padding.
  rewrite (get_use_shortcuts_other config "name") by discriminate.
  destruct (decide (layer_type = "conv"));
    [destruct (first_present ["kernel_size"; "kernel"; "k"] config); reflexivity |].
  destruct (decide (layer_type = "pool"));
    [destruct (first_present ["kernel_size"; "kernel"; "k"] config) |];
    reflexivity.
Qed.

(** X13.  The layer built from a record depends on the record's type only
    through its lower-case form, and an absent type is ['conv']: two
    records that agree on every other key, with types that are equal when
    lowered, give the same layer or the same exception. *)
Theorem layer_type_case_insensitive (config1 config2 : record) (ty1 ty2 : string) :
  get config1 "type" (VStr "conv") = VStr ty1 →
  get config2 "type" (VStr "conv") = VStr ty2 →
  lower ty1 = lower ty2 →
  (∀ key, key ≠ "type" → config1 !! key = config2 !! key) →
  (create_layer_from_config config1).2 = (create_layer_from_config config2).2.
Proof.
  intros Hty1 Hty2 Hlower Hagree.
  rewrite !create_layer_from_config_result, Hty1, Hty2. simpl.
  rewrite Hlower, !get_default.
  rewrite !(Hagree "kernel_size"), !(Hagree "kernel"), !(Hagree "k"),
    !(Hagree "stride"), !(Hagree "s"), !(Hagree "padding"), !(Hagree "p"),
    !(Hagree "name") by discriminate.
  reflexivity.
Qed.

Lemma layer_type_case_insensitive_witness :
  (create_layer_from_config {[ "type" := VStr "POOL"; "k" := VInt 2 ]}).2
  = (create_layer_from_config pool2).2.
Proof.
  apply (layer_type_case_insensitive _ pool2 "POOL" "Pool");
    [reflexivity | reflexivity | reflexivity |].
  intros key Hkey. unfold pool2.
  rewrite !lookup_insert_ne by congruence. reflexivity.
Defined.

Lemma use_shortcuts_idemp (config : record) :
  use_shortcuts (use_shortcuts config) = use_shortcuts config.
Proof.
  apply map_eq. intros key.
  destruct (decide (key = "kernel_size")) as [-> |].
  { rewrite (use_shortcuts_kernel_size (use_shortcuts config)). simpl.
    rewrite !(use_shortcuts_other config "kernel"),
      !(use_shortcuts_other config "k") by discriminate.
    rewrite use_shortcuts_kernel_size. simpl.
    repeat case_match; congruence. }
  destruct (decide (key = "stride")) as [-> |].
  { rewrite (use_shortcuts_stride (use_shortcuts config)). simpl.
    rewrite !(use_shortcuts_other config "s") by discriminate.
    rewrite use_shortcuts_stride. simpl.
    repeat case_match; congruence. }
  destruct (decide (key = "padding")) as [-> |].
  { rewrite (use_shortcuts_padding (use_shortcuts config)). simpl.
    rewrite !(use_shortcuts_other config "p") by discriminate.
    rewrite use_shortcuts_padding. simpl.
    repeat case_match; congruence. }
  apply use_shortcuts_other; assumption.
Qed.

Lemma create_layer_from_config_twice (config : record) (ty : string) :
  get config "type" (VStr "conv") = VStr ty →
  create_layer_from_config (create_layer_from_config config).1
  = create_layer_from_config config.
Proof.
  intros Hty.
  rewrite (create_layer_from_config_record config ty Hty).
  assert (get (use_shortcuts config) "type" (VStr "conv") = VStr ty) as Hty'
    by (rewrite get_use_shortcuts_other by discriminate; assumption).
  unfold create_layer_from_config.
  rewrite Hty, Hty'. unfold py_lower. cbv beta iota zeta.
  rewrite use_shortcuts_idemp. reflexivity.
Qed.

(** X14.  The record a call has written to can be given again: the second
    call leaves it as it is and returns the layer, or raises the
    exception, of the first. *)
Theorem create_layer_from_config_again (config : record) (ty : string) :
  get config "type" (VStr "conv") = VStr ty →
  create_layer_from_config (create_layer_from_config config).1
  = create_layer_from_config config.
Proof. apply create_layer_from_config_twice. Qed.

Lemma create_layer_from_config_again_witness :
  get abbreviated "type" (VStr "conv") = VStr "conv" ∧
  create_layer_from_config (create_layer_from_config abbreviated).1
  = create_layer_from_config abbreviated.
Proof.
  split; [reflexivity |].
  apply (create_layer_from_config_again abbreviated "conv"). reflexivity.
Defined.

(** ** [main], from the configuration to the layers *)

(** X15.  When [main] has computed the layers of a configuration with at
    least one layer record, there is one layer per record after the
    [Input], of the class that [create_layer_from_config] gives it; the
    [Input] holds the input size, an [int]; every layer holds a number in
    each of its four derived attributes; and the records of the
    configuration are left with their shortcuts written. *)
Theorem main_returns (config config' : Config) (input_size : value)
    (layers : store) :
  config_records config ≠ [] →
  main config input_size = (config', Ok layers) →
  config_records config' = use_shortcuts <$> config_records config ∧
  length layers = S (length (config_records config)) ∧
  (∃ N first,
     layers !! 0%nat = Some first ∧ cls first = Input ∧
     config_input_size config input_size = VInt N ∧ output_size first = VInt N) ∧
  (∀ l, l ∈ layers → populated l) ∧
  Forall2 (λ r l, ∃ l0, (create_layer_from_config r).2 = Ok l0 ∧ cls l = cls l0)
    (config_records config) (tail layers).
Proof.
  intros Hrecords Hmain.
  assert (match build_layers_from_config config input_size with
          | (config0, Raise e) => (config0, Raise e)
          | (config0, Ok built) =>
            match calculate_layers built with
            | (_, Raise e) => (config0, Raise e)
            | (layers', Ok _) => (config0, Ok layers')
            end
          end = (config', Ok layers)) as Hrun.
  { rewrite <- Hmain. unfold main.
    destruct config as [[| r records] |]; [contradiction | reflexivity ..]. }
  clear Hmain.
  destruct (build_layers_from_config config input_size)
    as [config0 [built | e]] eqn:Hbuild; [| discriminate].
  destruct (calculate_layers built) as [layers' [[] | e]] eqn:Hcalc;
    [| discriminate].
  injection Hrun as <- <-.
  apply build_layers_from_config_Ok in Hbuild
    as (rest & -> & Hlen & Hfresh & Hrel & Hconfig).
  destruct (calculate_layers_Ok_inv _ _ _ Hcalc)
    as (Hlen' & Hfirst & Hcls & Hpop & Hpop0).
  assert (rest ≠ []) as Hrest.
  { intros ->. simpl in Hlen. destruct (config_records config);
      [contradiction | discriminate]. }
  specialize (Hpop0 Hrest).
  split; [assumption |]. split; [congruence |]. split; [| split].
  - destruct Hpop0 as (o & r & c & j & Hd).
    unfold derived in Hd. simpl in Hd. injection Hd as Ho _ _ _.
    exists o, (Input_init (config_input_size config input_size) VNone).
    repeat split; assumption.
  - intros l Hl. apply list_elem_of_lookup_1 in Hl as [i Hi].
    destruct i as [| i].
    + rewrite Hfirst in Hi. injection Hi as <-. assumption.
    + apply (Hpop (S i) l); [lia | assumption].
  - destruct layers' as [| first' rest']; [discriminate |].
    simpl in Hcls. injection Hcls as _ Hcls. simpl.
    clear -Hrel Hcls. revert rest' Hcls.
    induction Hrel as [| r l0 records rest Hr Hrel IH]; intros rest' Hcls.
    + destruct rest'; [constructor | discriminate].
    + destruct rest' as [| l rest']; [discriminate |].
      simpl in Hcls. injection Hcls as Hl Hcls.
      constructor; [exists l0; split; assumption | apply IH; assumption].
Qed.

Lemma main_returns_witness :
  ∃ config' layers,
    (config_records (ConfigList [conv3; pool2]) ≠ [] ∧
     main (ConfigList [conv3; pool2]) (VInt 10) = (config', Ok layers)) ∧
    config_records config' = use_shortcuts <$> config_records (ConfigList [conv3; pool2]) ∧
    length layers = S (length (config_records (ConfigList [conv3; pool2]))) ∧
    (∃ N first,
       layers !! 0%nat = Some first ∧ cls first = Input ∧
       config_input_size (ConfigList [conv3; pool2]) (VInt 10) = VInt N ∧
       output_size first = VInt N) ∧
    (∀ l, l ∈ layers → populated l) ∧
    Forall2 (λ r l, ∃ l0, (create_layer_from_config r).2 = Ok l0 ∧ cls l = cls l0)
      (config_records (ConfigList [conv3; pool2])) (tail layers).
Proof.
  eexists _, _.
  assert (config_records (ConfigList [conv3; pool2]) ≠ []) as Hne by discriminate.
  split; [split; [exact Hne | reflexivity] |].
  apply (main_returns (ConfigList [conv3; pool2]) _ (VInt 10) _ Hne).
  reflexivity.
Defined.

(** ** Descriptions *)

Lemma length_append (a b : string) :
  String.length (a ++ b) = (String.length a + String.length b)%nat.
Proof. induction a as [| c a IH]; simpl; [reflexivity | rewrite IH; reflexivity]. Qed.

Lemma append_assoc (a b c : string) : (a ++ b) ++ c = a ++ b ++ c.
Proof.
  induction a as [| x a IH]; [reflexivity |].
  change (String x ((a ++ b) ++ c) = String x (a ++ b ++ c)).
  f_equal. exact IH.
Qed.

Lemma append_empty (a : string) : a ++ "" = a.
Proof.
  induction a as [| x a IH]; [reflexivity |].
  change (String x (a ++ "") = String x a). f_equal. exact IH.
Qed.

(** Zero is written under every limit. *)
Lemma too_long_truthy (limit : nat) (v : value) :
  too_long limit v → truthy v = true.
Proof.
  intros (z & -> & Hz). simpl.
  destruct (Z.eqb_spec z 0) as [-> |]; [| reflexivity].
  unfold too_many_digits in Hz.
  assert (decimal_digits 0 = 1%nat) as Hzero by (vm_compute; reflexivity).
  rewrite Hzero in Hz. destruct limit as [| [| limit]]; discriminate Hz.
Qed.

Lemma py_str_Ok (limit : nat) (v : value) (text : string) :
  py_str limit v = Ok text → text = decimal v ∧ ¬ too_long limit v.
Proof.
  destruct v as [| z | s]; simpl.
  - intros [= <-]. split; [reflexivity | intros (z & [=] & _)].
  - destruct (too_many_digits limit z) eqn:Hz; [discriminate |].
    intros [= <-]. split; [reflexivity |].
    intros (z' & [= <-] & Hz'). congruence.
  - intros [= <-]. split; [reflexivity | intros (z & [=] & _)].
Qed.

Lemma py_str_Raise (limit : nat) (v : value) (e : exn) :
  py_str limit v = Raise e → e = ValueError ∧ too_long limit v.
Proof.
  destruct v as [| z | s]; simpl; try discriminate.
  destruct (too_many_digits limit z) eqn:Hz; [| discriminate].
  intros [= <-]. split; [reflexivity | exists z; auto].
Qed.

Lemma py_str_within (limit : nat) (v : value) :
  ¬ too_long limit v → py_str limit v = Ok (decimal v).
Proof.
  intros Hv. destruct (py_str limit v) as [text | e] eqn:Hstr.
  - apply py_str_Ok in Hstr as [-> _]. reflexivity.
  - apply py_str_Raise in Hstr as [_ Hlong]. contradiction.
Qed.

Lemma Layer_description_raises (self : Layer) (e : exn) :
  Layer_description self = Raise e ↔
  e = TypeError ∧ ∃ z, name self = VInt z ∧ z ≠ 0.
Proof.
  unfold Layer_description. destruct (name self) as [| z | s]; simpl.
  - split; [discriminate | intros (_ & z & [=] & _)].
  - destruct (Z.eqb_spec z 0) as [-> | Hz]; simpl.
    + split; [discriminate | intros (_ & z & [= <-] & Hz); contradiction].
    + split; [intros [= <-]; eauto | intros [-> _]; reflexivity].
  - split; [| intros (_ & z & [=] & _)].
    destruct (negb _); discriminate.
Qed.

Lemma Layer_description_Ok (self : Layer) (d : string) :
  Layer_description self = Ok d →
  (∀ z, name self = VInt z → z = 0) ∧
  d = class_name (cls self) ++ name_text (name self).
Proof.
  unfold Layer_description. destruct (name self) as [| z | s]; simpl.
  - intros [= <-]. split; [intros z [=] |].
    destruct (cls self); reflexivity.
  - destruct (Z.eqb_spec z 0) as [-> | Hz]; simpl; [| discriminate].
    intros [= <-]. split; [intros z [= <-]; reflexivity |].
    destruct (cls self); reflexivity.
  - destruct (String.eqb_spec s "") as [-> | Hs]; simpl;
      intros [= <-]; (split; [intros z [=] |]); [| reflexivity].
    destruct (cls self); reflexivity.
Qed.

Lemma Conv_description_Ok (limit : nat) (self : Layer) (p : ConvParams)
    (d : string) :
  Conv_description limit self p = Ok d →
  (∀ z, name self = VInt z → z = 0) ∧ ¬ exceeds limit p ∧
  d = class_name (cls self) ++ name_text (name self) ++
      " [kernel_size=" ++ decimal (kernel p) ++
      ", stride=" ++ decimal (stride p) ++
      ", padding=" ++ decimal (padding p) ++
      (if truthy (_padding p) then "(" ++ decimal (_padding p) ++ ")" else "") ++
      "]".
Proof.
  unfold Conv_description.
  destruct (Layer_description self) as [base | e] eqn:Hbase; simpl;
    [| discriminate].
  destruct (py_str limit (kernel p)) as [k | e] eqn:Hk; simpl; [| discriminate].
  destruct (py_str limit (stride p)) as [s | e] eqn:Hs; simpl; [| discriminate].
  destruct (py_str limit (padding p)) as [pd | e] eqn:Hpd; simpl;
    [| discriminate].
  apply Layer_description_Ok in Hbase as [Hname ->].
  apply py_str_Ok in Hk as [-> Hk], Hs as [-> Hs], Hpd as [-> Hpd].
  destruct (truthy (_padding p)) eqn:Hpolicy.
  - destruct (py_str limit (_padding p)) as [t | e] eqn:Ht; simpl;
      [| discriminate].
    apply py_str_Ok in Ht as [-> Ht]. intros [= <-].
    split; [exact Hname |]. split; [intros [H | [H | [H | H]]]; contradiction |].
    rewrite append_assoc. reflexivity.
  - simpl. intros [= <-].
    split; [exact Hname |]. split.
    + intros [H | [H | [H | H]]]; try contradiction.
      apply too_long_truthy in H. congruence.
    + rewrite append_assoc. reflexivity.
Qed.

Lemma Conv_description_Raise (limit : nat) (self : Layer) (p : ConvParams)
    (e : exn) :
  Conv_description limit self p = Raise e →
  (e = TypeError ∧ ∃ z, name self = VInt z ∧ z ≠ 0) ∨
  (e = ValueError ∧ (∀ z, name self = VInt z → z = 0) ∧ exceeds limit p).
Proof.
  unfold Conv_description.
  destruct (Layer_description self) as [base | e'] eqn:Hbase; simpl.
  - apply Layer_description_Ok in Hbase as [Hname _].
    destruct (py_str limit (kernel p)) as [k | e'] eqn:Hk; simpl.
    2: { intros [= <-]. apply py_str_Raise in Hk as [-> Hk].
         right. unfold exceeds. tauto. }
    destruct (py_str limit (stride p)) as [s | e'] eqn:Hs; simpl.
    2: { intros [= <-]. apply py_str_Raise in Hs as [-> Hs].
         right. unfold exceeds. tauto. }
    destruct (py_str limit (padding p)) as [pd | e'] eqn:Hpd; simpl.
    2: { intros [= <-]. apply py_str_Raise in Hpd as [-> Hpd].
         right. unfold exceeds. tauto. }
    destruct (truthy (_padding p)); [| discriminate].
    destruct (py_str limit (_padding p)) as [t | e'] eqn:Ht; simpl;
      [discriminate |].
    intros [= <-]. apply py_str_Raise in Ht as [-> Ht].
    right. unfold exceeds. tauto.
  - intros [= <-]. left. apply Layer_description_raises. exact Hbase.
Qed.

Lemma description_Ok_inv (limit : nat) (self : Layer) (d : string) :
  description limit self = Ok d →
  (∀ z, name self = VInt z → z = 0) ∧
  (∀ p, conv_params self = Some p → ¬ exceeds limit p) ∧
  d = description_text self.
Proof.
  unfold description, description_text, params_text.
  destruct (conv_params self) as [p |].
  - intros Hd. apply Conv_description_Ok in Hd as (Hname & Hp & ->).
    split; [exact Hname |]. split; [intros p' [= <-]; exact Hp | reflexivity].
  - intros Hd. apply Layer_description_Ok in Hd as (Hname & ->).
    split; [exact Hname |]. split; [intros p [=] |].
    rewrite append_empty. reflexivity.
Qed.

Lemma description_Raise_inv (limit : nat) (self : Layer) (e : exn) :
  description limit self = Raise e →
  (e = TypeError ∧ ∃ z, name self = VInt z ∧ z ≠ 0) ∨
  (e = ValueError ∧ (∀ z, name self = VInt z → z = 0) ∧
   ∃ p, conv_params self = Some p ∧ exceeds limit p).
Proof.
  unfold description. destruct (conv_params self) as [p |].
  - intros Hd. apply Conv_description_Raise in Hd as [Hd | (-> & Hname & Hp)];
      [left; exact Hd | right; eauto].
  - intros Hd. left. apply Layer_description_raises. exact Hd.
Qed.

Lemma description_raise_iff (limit : nat) (self : Layer) (e : exn) :
  description limit self = Raise e ↔
  (e = TypeError ∧ ∃ z, name self = VInt z ∧ z ≠ 0) ∨
  (e = ValueError ∧ (∀ z, name self = VInt z → z = 0) ∧
   ∃ p, conv_params self = Some p ∧ exceeds limit p).
Proof.
  split; [apply description_Raise_inv |].
  intros Hcase. destruct (description limit self) as [d | e'] eqn:Hd.
  - exfalso. apply description_Ok_inv in Hd as (Hname & Hp & _).
    destruct Hcase as [(_ & z & Hz & Hne) | (_ & _ & p & Hcp & Hex)].
    + apply Hne, Hname, Hz.
    + apply (Hp p Hcp Hex).
  - f_equal. apply description_Raise_inv in Hd.
    destruct Hcase as [(-> & z & Hz & Hne) | (-> & Hname & _)];
      destruct Hd as [(-> & z' & Hz' & Hne') | (-> & Hname' & _)];
      try reflexivity; exfalso.
    + apply Hne, Hname', Hz.
    + apply Hne', Hname, Hz'.
Qed.

Lemma description_within (limit : nat) (self : Layer) :
  (∀ z, name self = VInt z → z = 0) →
  (∀ p, conv_params self = Some p → ¬ exceeds limit p) →
  description limit self = Ok (description_text self).
Proof.
  intros Hname Hp. destruct (description limit self) as [d | e] eqn:Hd.
  - apply description_Ok_inv in Hd as (_ & _ & ->). reflexivity.
  - exfalso.
    apply description_Raise_inv in Hd
      as [(_ & z & Hz & Hne) | (_ & _ & p & Hcp & Hex)].
    + apply Hne, Hname, Hz.
    + apply (Hp p Hcp Hex).
Qed.

(** X16.  What the description of a layer is.  It raises in two cases
    only: [TypeError] when the name of the layer is an [int] other than
    zero, which cannot be appended to the class name, and otherwise
    [ValueError] when the layer is a [Conv] or a [Pool] and one of
    [kernel], [stride], [padding] and [_padding] is an [int] of more
    digits than the interpreter writes.  When it returns, the description
    is the class name, then the name if it is a [str] (a name that is
    [None], [0] or empty adds nothing), then for a [Conv] or a [Pool] the
    bracketed [kernel_size], [stride] and [padding], the padding followed
    by the padding policy in parentheses when there is one. *)
Theorem description_characterised (int_max_str_digits : nat) (self : Layer) :
  (∀ e, description int_max_str_digits self = Raise e ↔
     (e = TypeError ∧ ∃ z, name self = VInt z ∧ z ≠ 0) ∨
     (e = ValueError ∧ (∀ z, name self = VInt z → z = 0) ∧
      ∃ p, conv_params self = Some p ∧ exceeds int_max_str_digits p)) ∧
  (∀ d, description int_max_str_digits self = Ok d →
     d = class_name (cls self) ++ name_text (name self) ++
         match conv_params self with
         | None => ""
         | Some p =>
           " [kernel_size=" ++ decimal (kernel p) ++
           ", stride=" ++ decimal (stride p) ++
           ", padding=" ++ decimal (padding p) ++
           (if truthy (_padding p)
            then "(" ++ decimal (_padding p) ++ ")" else "") ++
           "]"
         end) ∧
  ((∀ z, name self = VInt z → z = 0) →
   (∀ p, conv_params self = Some p → ¬ exceeds int_max_str_digits p) →
   ∃ d, description int_max_str_digits self = Ok d).
Proof.
  split; [intros e; apply description_raise_iff |]. split.
  - intros d Hd. apply description_Ok_inv in Hd as (_ & _ & ->). reflexivity.
  - intros Hname Hp. eexists. apply description_within; assumption.
Qed.

Lemma description_characterised_witness :
  description 4300 (Layer_init Input (VInt 7)) = Raise TypeError ∧
  description 640 wide_conv = Raise ValueError.
Proof.
  split.
  - apply (proj1 (description_characterised 4300 (Layer_init Input (VInt 7)))).
    left. split; [reflexivity |]. exists 7. split; [reflexivity | discriminate].
  - apply (proj1 (description_characterised 640 wide_conv)).
    right. split; [reflexivity |]. split; [intros z Hz; discriminate Hz |].
    exists wide_params. split; [reflexivity |].
    left. exists (10 ^ 640). split; [reflexivity | vm_compute; reflexivity].
Defined.

(** Every description is at least as long as the header of its column. *)
Lemma description_text_length (self : Layer) :
  (5 ≤ String.length (description_text self))%nat.
Proof.
  unfold description_text, params_text, conv_params.
  destruct (cls self) as [| p | p]; simpl;
    rewrite ?length_append; simpl; lia.
Qed.

(** ** The output table *)

Lemma length_str_repeat_char (c : ascii) (n : nat) :
  String.length (str_repeat (String c "") n) = n.
Proof. induction n as [| n IH]; simpl; [reflexivity | f_equal; exact IH]. Qed.

Lemma length_ljust (text : string) (width : nat) :
  String.length (ljust text width) = Nat.max (String.length text) width.
Proof.
  unfold ljust. rewrite length_append, (length_str_repeat_char " "). lia.
Qed.

Lemma length_center (text : string) (width : nat) :
  String.length (center text width) = Nat.max (String.length text) width.
Proof.
  unfold center. rewrite !length_append, !(length_str_repeat_char " ").
  pose proof (Nat.Div0.div_le_upper_bound (width - String.length text) 2
                (width - String.length text)) as Hhalf.
  assert ((width - String.length text) / 2 ≤ width - String.length text)%nat
    by (apply Hhalf; lia).
  lia.
Qed.

Lemma max_length_bound (texts : list string) (text : string) :
  text ∈ texts → (String.length text ≤ max_length texts)%nat.
Proof.
  unfold max_length.
  induction 1 as [text texts | text text' texts _ IH];
    rewrite fmap_cons; cbn [foldr]; lia.
Qed.

Lemma max_length_const (texts : list string) (n : nat) :
  texts ≠ [] → (∀ text, text ∈ texts → String.length text = n) →
  max_length texts = n.
Proof.
  unfold max_length. induction texts as [| text texts IH]; intros Hne Hall;
    [contradiction |].
  rewrite fmap_cons. cbn [foldr]. rewrite (Hall text) by left.
  destruct texts as [| text' texts]; [simpl; lia |].
  rewrite IH; [lia | discriminate |].
  intros t Ht. apply Hall. right. assumption.
Qed.

Lemma format_center_Ok (limit : nat) (v : value) (width : nat) (text : string) :
  format_center limit v width = Ok text →
  v ≠ VNone ∧ ¬ too_long limit v ∧ text = center (decimal v) width.
Proof.
  unfold format_center. destruct v as [| z | s]; [discriminate | ..];
    (destruct (py_str limit _) as [t | e] eqn:Ht; simpl; [| discriminate];
     apply py_str_Ok in Ht as [-> Ht]; intros [= <-];
     split; [discriminate | split; [exact Ht | reflexivity]]).
Qed.

Lemma format_center_Raise (limit : nat) (v : value) (width : nat) (e : exn) :
  format_center limit v width = Raise e →
  (e = TypeError ∧ v = VNone) ∨ (e = ValueError ∧ too_long limit v).
Proof.
  unfold format_center. destruct v as [| z | s];
    [intros [= <-]; left; auto | ..];
    (destruct (py_str limit _) as [t | e'] eqn:Ht; simpl; [discriminate |];
     apply py_str_Raise in Ht as [-> Ht]; intros [= <-]; right; auto).
Qed.

Lemma format_center_within (limit : nat) (v : value) (width : nat) :
  v ≠ VNone → ¬ too_long limit v →
  format_center limit v width = Ok (center (decimal v) width).
Proof.
  intros Hv Hlong. unfold format_center. rewrite (py_str_within _ _ Hlong).
  destruct v; [contradiction | reflexivity | reflexivity].
Qed.

Lemma descriptions_length (limit : nat) (layers : store) (ds : list string) :
  descriptions limit layers = Ok ds → length ds = length layers.
Proof.
  revert ds. induction layers as [| l layers IH]; intros ds; simpl.
  - intros [= <-]. reflexivity.
  - destruct (description limit l) as [d | e]; simpl; [| discriminate].
    destruct (descriptions limit layers) as [ds' | e]; simpl; [| discriminate].
    intros [= <-]. simpl. f_equal. apply IH. reflexivity.
Qed.

Lemma descriptions_printable (limit : nat) (layers : store) :
  Forall (printable limit) layers →
  descriptions limit layers = Ok (description_text <$> layers).
Proof.
  induction 1 as [| l layers (Hname & (Hp & _) & _) _ IH]; simpl;
    [reflexivity |].
  rewrite (description_within limit l Hname Hp), IH. reflexivity.
Qed.

Lemma table_row_printable (limit width0 : nat) (layer : Layer) :
  printable limit layer →
  table_row limit width0 layer = Ok (row_text width0 layer).
Proof.
  intros (Hname & (Hp & Ho' & Hr') & Ho & Hr & _).
  unfold table_row.
  rewrite (description_within limit layer Hname Hp),
    (format_center_within limit _ 12 Ho Ho'),
    (format_center_within limit _ 16 Hr Hr').
  reflexivity.
Qed.

Lemma table_rows_printable (limit width0 : nat) (layers : store) :
  Forall (printable limit) layers →
  table_rows limit width0 layers = Ok (row_text width0 <$> layers).
Proof.
  induction 1 as [| l layers Hl _ IH]; simpl; [reflexivity |].
  rewrite (table_row_printable limit width0 l Hl), IH. reflexivity.
Qed.

Lemma length_row_text (limit width0 : nat) (layer : Layer) :
  printable limit layer →
  (String.length (description_text layer) ≤ width0)%nat →
  String.length (row_text width0 layer) = (width0 + 34)%nat.
Proof.
  intros (_ & _ & _ & _ & Ho & Hr) Hfit. unfold row_text.
  rewrite !length_append, length_ljust, !length_center. simpl. lia.
Qed.

Lemma length_table_header (width0 : nat) :
  (5 ≤ width0)%nat → String.length (table_header width0) = (width0 + 34)%nat.
Proof.
  intros Hw. unfold table_header. cbn [join].
  rewrite !length_append, !length_ljust. simpl. lia.
Qed.

(** X17.  The first call of [build_output_table], on at least one layer,
    all of them printable, returns these lines, in this order: the
    header, a rule of hyphens, the row of every layer in the order of the
    layers, and the same rule.  The first column is as wide as the
    longest description and is kept for the calls that follow; a row is
    the description padded on the right to that width, the output size
    centred in 12 characters and the size of the receptive field centred
    in 16, with [" | "] between them; every line, the rule too, has the
    length of the longest description plus 34. *)
Theorem output_table_aligned (int_max_str_digits : nat) (layers : store) :
  layers ≠ [] → Forall (printable int_max_str_digits) layers →
  build_output_table int_max_str_digits None layers
  = (Some (first_width layers),
     Ok (table_header (first_width layers)
         :: str_repeat "-" (first_width layers + 34)
         :: (row_text (first_width layers) <$> layers)
         ++ [str_repeat "-" (first_width layers + 34)])%list) ∧
  table_header (first_width layers)
  = ljust "Layer" (first_width layers) ++ " | Output Size  | Receptive Field " ∧
  String.length (table_header (first_width layers))
  = (first_width layers + 34)%nat ∧
  ∀ layer, layer ∈ layers →
    String.length (row_text (first_width layers) layer)
    = (first_width layers + 34)%nat.
Proof.
  intros Hne Hall.
  assert (∀ layer, layer ∈ layers →
            String.length (description_text layer) ≤ first_width layers)%nat
    as Hfit.
  { intros layer Hin. apply max_length_bound.
    apply list_elem_of_fmap. exists layer. auto. }
  assert (5 ≤ first_width layers)%nat as Hw.
  { destruct layers as [| l layers]; [contradiction |].
    pose proof (description_text_length l).
    pose proof (Hfit l ltac:(left)). lia. }
  assert (∀ layer, layer ∈ layers →
            String.length (row_text (first_width layers) layer)
            = first_width layers + 34)%nat as Hrows.
  { intros layer Hin. apply (length_row_text int_max_str_digits).
    - rewrite Forall_forall in Hall. apply Hall, Hin.
    - apply Hfit, Hin. }
  split; [| split; [reflexivity | split; [apply length_table_header, Hw | exact Hrows]]].
  unfold build_output_table.
  rewrite (descriptions_printable _ _ Hall).
  assert (∃ d ds, description_text <$> layers = d :: ds) as (d & ds & Hds).
  { destruct layers; [contradiction | simpl; eauto]. }
  rewrite Hds, <- Hds.
  change (max_length (description_text <$> layers)) with (first_width layers).
  cbv zeta.
  rewrite (table_rows_printable _ _ _ Hall).
  assert (∃ row rows, row_text (first_width layers) <$> layers = row :: rows)
    as (row & rows & Hrs).
  { destruct layers; [contradiction | simpl; eauto]. }
  rewrite Hrs, <- Hrs.
  rewrite (max_length_const (row_text (first_width layers) <$> layers)
             (first_width layers + 34)).
  - rewrite (length_table_header _ Hw), Nat.max_id. reflexivity.
  - rewrite Hrs. discriminate.
  - intros text Htext. apply list_elem_of_fmap in Htext as (layer & -> & Hin).
    apply Hrows, Hin.
Qed.

Lemma output_table_aligned_witness :
  ((calculate_layers example_chain).1 ≠ [] ∧
   Forall (printable 4300) (calculate_layers example_chain).1) ∧
  build_output_table 4300 None (calculate_layers example_chain).1
  = (Some 47%nat,
     Ok ["Layer                                           | Output Size  | Receptive Field ";
         "---------------------------------------------------------------------------------";
         "Input                                           |      10      |        1        ";
         "Conv [kernel_size=3, stride=1, padding=1(same)] |      10      |        3        ";
         "Pool [kernel_size=2, stride=2, padding=1(same)] |      5       |        4        ";
         "---------------------------------------------------------------------------------"]).
Proof.
  assert ((calculate_layers example_chain).1 ≠ []) as Hne by discriminate.
  assert (Forall (printable 4300) (calculate_layers example_chain).1) as Hall.
  { let chain := eval vm_compute in (calculate_layers example_chain).1 in
    change (Forall (printable 4300) chain).
    repeat (apply Forall_cons_2 || apply Forall_nil_2);
      (split; [intros z Hz; discriminate Hz |]);
      (split; [split; [| split] |]);
      try (intros (z & Hz & Hlong); injection Hz as <-;
           vm_compute in Hlong; discriminate Hlong);
      try (intros p Hp; injection Hp as <-;
           intros [H | [H | [H | H]]]; destruct H as (z & Hz & Hlong);
           try discriminate Hz; injection Hz as <-;
           vm_compute in Hlong; discriminate Hlong);
      try (intros p Hp; discriminate Hp);
      repeat split; try discriminate; vm_compute; lia. }
  split; [split; [exact Hne | exact Hall] |].
  exact (proj1 (output_table_aligned 4300 (calculate_layers example_chain).1
                  Hne Hall)).
Defined.

Lemma descriptions_Raise (limit : nat) (layers : store) (e : exn) :
  descriptions limit layers = Raise e →
  e = TypeError ∨
  (e = ValueError ∧ ∃ l, l ∈ layers ∧ ¬ digits_within limit l).
Proof.
  induction layers as [| l layers IH]; simpl; [discriminate |].
  destruct (description limit l) as [d | e'] eqn:Hd; simpl.
  - destruct (descriptions limit layers) as [ds | e']; simpl; [discriminate |].
    intros [= <-]. destruct (IH eq_refl) as [-> | (-> & l' & Hin & Hl')];
      [left; reflexivity | right].
    split; [reflexivity |]. exists l'. split; [right; exact Hin | exact Hl'].
  - intros [= <-].
    apply description_Raise_inv in Hd as [[-> _] | (-> & _ & p & Hcp & Hex)];
      [left; reflexivity | right].
    split; [reflexivity |]. exists l. split; [left |].
    intros (Hp & _). apply (Hp p Hcp Hex).
Qed.

Lemma table_row_Raise (limit width0 : nat) (layer : Layer) (e : exn) :
  table_row limit width0 layer = Raise e →
  e = TypeError ∨ (e = ValueError ∧ ¬ digits_within limit layer).
Proof.
  unfold table_row.
  destruct (description limit layer) as [d | e'] eqn:Hd; simpl.
  - destruct (format_center limit (output_size layer) 12) as [so | e'] eqn:Ho;
      simpl.
    + destruct (format_center limit (receptive_field_size layer) 16)
        as [sf | e'] eqn:Hf; simpl; [discriminate |].
      intros [= <-]. apply format_center_Raise in Hf as [[-> _] | [-> Hf]];
        [left; reflexivity | right].
      split; [reflexivity |]. intros (_ & _ & Hr). contradiction.
    + intros [= <-]. apply format_center_Raise in Ho as [[-> _] | [-> Ho]];
        [left; reflexivity | right].
      split; [reflexivity |]. intros (_ & Ho' & _). contradiction.
  - intros [= <-].
    apply description_Raise_inv in Hd as [[-> _] | (-> & _ & p & Hcp & Hex)];
      [left; reflexivity | right].
    split; [reflexivity |]. intros (Hp & _). apply (Hp p Hcp Hex).
Qed.

Lemma table_row_Ok (limit width0 : nat) (layer : Layer) (row : string) :
  table_row limit width0 layer = Ok row →
  output_size layer ≠ VNone ∧ receptive_field_size layer ≠ VNone.
Proof.
  unfold table_row.
  destruct (description limit layer) as [d | e']; simpl; [| discriminate].
  destruct (format_center limit (output_size layer) 12) as [so | e'] eqn:Ho;
    simpl; [| discriminate].
  destruct (format_center limit (receptive_field_size layer) 16)
    as [sf | e'] eqn:Hf; simpl; [| discriminate].
  intros _. apply format_center_Ok in Ho as [Ho _], Hf as [Hf _]. auto.
Qed.

Lemma table_rows_Raise (limit width0 : nat) (layers : store) (e : exn) :
  table_rows limit width0 layers = Raise e →
  e = TypeError ∨
  (e = ValueError ∧ ∃ l, l ∈ layers ∧ ¬ digits_within limit l).
Proof.
  induction layers as [| l layers IH]; simpl; [discriminate |].
  destruct (table_row limit width0 l) as [row | e'] eqn:Hrow; simpl.
  - destruct (table_rows limit width0 layers) as [rows | e']; simpl;
      [discriminate |].
    intros [= <-]. destruct (IH eq_refl) as [-> | (-> & l' & Hin & Hl')];
      [left; reflexivity | right].
    split; [reflexivity |]. exists l'. split; [right; exact Hin | exact Hl'].
  - intros [= <-]. apply table_row_Raise in Hrow as [-> | [-> Hl]];
      [left; reflexivity | right].
    split; [reflexivity |]. exists l. split; [left | exact Hl].
Qed.

Lemma table_rows_Ok (limit width0 : nat) (layers : store) (rows : list string) :
  table_rows limit width0 layers = Ok rows →
  length rows = length layers ∧
  ∀ l, l ∈ layers →
    output_size l ≠ VNone ∧ receptive_field_size l ≠ VNone.
Proof.
  revert rows. induction layers as [| l layers IH]; intros rows; simpl.
  - intros [= <-]. split; [reflexivity |]. intros l Hl. inversion Hl.
  - destruct (table_row limit width0 l) as [row |] eqn:Hrow; simpl;
      [| discriminate].
    destruct (table_rows limit width0 layers) as [rows' |]; simpl;
      [| discriminate].
    intros [= <-]. destruct (IH rows' eq_refl) as [Hlen Hall].
    split; [simpl; congruence |].
    intros l' Hl'. apply elem_of_cons in Hl' as [-> | Hl'].
    + apply (table_row_Ok _ _ _ _ Hrow).
    + apply Hall. assumption.
Qed.

(** How a call of [build_output_table] ends, by the step that decides
    it. *)
Lemma build_output_table_Ok (limit : nat) (width0 : option nat)
    (layers : store) (lines : list string) :
  (build_output_table limit width0 layers).2 = Ok lines →
  ∃ w rows, table_rows limit w layers = Ok rows.
Proof.
  unfold build_output_table.
  destruct width0 as [w |]; cbv zeta.
  - destruct (table_rows limit w layers) as [[| row rows] | e] eqn:Hrows;
      simpl; [discriminate | eauto | discriminate].
  - destruct (descriptions limit layers) as [[| d ds] | e];
      [discriminate | | discriminate].
    destruct (table_rows limit (max_length (d :: ds)) layers)
      as [[| row rows] | e] eqn:Hrows;
      simpl; [discriminate | eauto | discriminate].
Qed.

Lemma build_output_table_Raise (limit : nat) (width0 : option nat)
    (layers : store) (e : exn) :
  (build_output_table limit width0 layers).2 = Raise e →
  layers = [] ∨ descriptions limit layers = Raise e ∨
  ∃ w, table_rows limit w layers = Raise e.
Proof.
  unfold build_output_table.
  destruct width0 as [w |]; cbv zeta.
  - destruct (table_rows limit w layers) as [[| row rows] | e'] eqn:Hrows;
      simpl; [| discriminate | intros [= <-]; eauto].
    intros _. left. apply table_rows_Ok in Hrows as [Hlen _].
    destruct layers; [reflexivity | discriminate Hlen].
  - destruct (descriptions limit layers) as [[| d ds] | e'] eqn:Hds.
    + intros _. left. apply descriptions_length in Hds.
      destruct layers; [reflexivity | discriminate Hds].
    + destruct (table_rows limit (max_length (d :: ds)) layers)
        as [[| row rows] | e'] eqn:Hrows;
        simpl; [| discriminate | intros [= <-]; eauto].
      intros _. left. apply table_rows_Ok in Hrows as [Hlen _].
      destruct layers; [reflexivity | discriminate Hlen].
    + simpl. intros [= <-]. auto.
Qed.

(** X18.  A list with a layer whose [output_size] or
    [receptive_field_size] is [None], as the [Input] of a configuration
    without input size is, cannot be printed: whatever the width of the
    first column was, [build_output_table] raises, and what it raises is
    [TypeError], unless some layer of the list has an [int] of more
    digits than the interpreter writes, when it may be the [ValueError]
    of that. *)
Theorem output_table_of_None_raises (int_max_str_digits : nat)
    (width0 : option nat) (layers : store) (layer : Layer) :
  layer ∈ layers →
  output_size layer = VNone ∨ receptive_field_size layer = VNone →
  ∃ e, (build_output_table int_max_str_digits width0 layers).2 = Raise e ∧
       (e = TypeError ∨
        (e = ValueError ∧
         ∃ l, l ∈ layers ∧ ¬ digits_within int_max_str_digits l)).
Proof.
  intros Hin Hnone.
  destruct (build_output_table int_max_str_digits width0 layers).2
    as [lines | e] eqn:Htable.
  - exfalso. apply build_output_table_Ok in Htable as (w & rows & Hrows).
    apply table_rows_Ok in Hrows as [_ Hall].
    destruct (Hall layer Hin) as [Ho Hf]. destruct Hnone; contradiction.
  - exists e. split; [reflexivity |].
    apply build_output_table_Raise in Htable as [-> | [Hds | [w Hrows]]].
    + inversion Hin.
    + apply (descriptions_Raise _ _ _ Hds).
    + apply (table_rows_Raise _ _ _ _ Hrows).
Qed.

Lemma output_table_of_None_raises_witness :
  (Input_init VNone VNone ∈ [Input_init VNone VNone] ∧
   output_size (Input_init VNone VNone) = VNone) ∧
  ∃ e, (build_output_table 4300 None [Input_init VNone VNone]).2 = Raise e ∧
       (e = TypeError ∨
        (e = ValueError ∧
         ∃ l, l ∈ [Input_init VNone VNone] ∧ ¬ digits_within 4300 l)).
Proof.
  assert (Input_init VNone VNone ∈ [Input_init VNone VNone]) as Hin by left.
  split; [split; [exact Hin | reflexivity] |].
  apply (output_table_of_None_raises 4300 None [Input_init VNone VNone]
           (Input_init VNone VNone) Hin).
  left. reflexivity.
Defined.

(** ** Running [main] again *)

Lemma create_layer_from_config_twice_any (config : record) :
  create_layer_from_config (create_layer_from_config config).1
  = create_layer_from_config config.
Proof.
  destruct (get config "type" (VStr "conv")) as [| z | ty] eqn:Hty.
  - assert (create_layer_from_config config = (config, Raise AttributeError)) as H
      by (apply type_not_str_raises_any; rewrite Hty; discriminate).
    rewrite H. simpl. exact H.
  - assert (create_layer_from_config config = (config, Raise AttributeError)) as H
      by (apply type_not_str_raises_any; rewrite Hty; discriminate).
    rewrite H. simpl. exact H.
  - apply (create_layer_from_config_twice config ty Hty).
Qed.

Lemma create_layers_twice (config : list record) :
  create_layers (create_layers config).1 = create_layers config.
Proof.
  induction config as [| r config IH]; simpl; [reflexivity |].
  pose proof (create_layer_from_config_twice_any r) as Hr.
  destruct (create_layer_from_config r) as [r' [l | e]]; simpl in Hr.
  - destruct (create_layers config) as [rest' res]. simpl in IH. simpl.
    rewrite Hr, IH. reflexivity.
  - simpl. rewrite Hr. reflexivity.
Qed.

Lemma build_layers_from_config_twice (config : Config) (input_size : value) :
  build_layers_from_config (build_layers_from_config config input_size).1 input_size
  = build_layers_from_config config input_size.
Proof.
  destruct config as [records | size [records |]]; simpl; [| | reflexivity];
    pose proof (create_layers_twice records) as Htwice;
    destruct (create_layers records) as [records' res]; simpl in *;
    rewrite Htwice; reflexivity.
Qed.

Lemma main_not_empty (config : Config) (input_size : value) :
  config ≠ ConfigList [] →
  main config input_size = build_and_calculate config input_size.
Proof. destruct config as [[| r records] |]; [contradiction | reflexivity ..]. Qed.

Lemma build_and_calculate_config (config : Config) (input_size : value) :
  (build_and_calculate config input_size).1
  = (build_layers_from_config config input_size).1.
Proof.
  unfold build_and_calculate.
  destruct (build_layers_from_config config input_size) as [config' [ls | e]];
    [| reflexivity].
  destruct (calculate_layers ls) as [ls' [[] | e]]; reflexivity.
Qed.

Lemma build_layers_from_config_not_empty (config : Config) (input_size : value) :
  config ≠ ConfigList [] →
  (build_layers_from_config config input_size).1 ≠ ConfigList [].
Proof.
  destruct config as [[| r records] | size [records |]]; simpl;
    [contradiction | | | discriminate]; intros _.
  - destruct (create_layer_from_config r) as [r' [l | e]]; [| discriminate].
    destruct (create_layers records) as [records' res]. discriminate.
  - destruct (create_layers records) as [records' res]. discriminate.
Qed.

(** X19.  The configuration [main] leaves behind, with the shortcuts
    written into its records, gives the same result when [main] is run on
    it again: the same layers or the same exception, and the
    configuration is not changed a second time. *)
Theorem main_again (config : Config) (input_size : value) :
  main (main config input_size).1 input_size = main config input_size.
Proof.
  assert (config = ConfigList [] ∨ config ≠ ConfigList []) as [-> | Hne].
  { destruct config as [[| r records] |]; [left; reflexivity | right ..];
      discriminate. }
  - reflexivity.
  - rewrite (main_not_empty config input_size Hne).
    rewrite build_and_calculate_config.
    rewrite main_not_empty
      by (apply build_layers_from_config_not_empty; assumption).
    unfold build_and_calculate.
    rewrite build_layers_from_config_twice. reflexivity.
Qed.
